(** * crafter-lamp: the lamp control core of [crafter-lamp.ino]

    A shallow embedding of the control code of the three-channel LED lamp
    (rotary knob, button gestures, MQTT commands, fades, afterglow event)
    and the properties of its specification that can be settled on it.

    Everything the sketch does to the outside world (PWM writes, delays,
    MQTT publishes, reconnects, serial log lines) is appended to a
    chronological [trace]; the OLED display is a pure observer of the state
    and its drawing calls are left out of the trace: [displayLampState] and
    [displayRotaryValue] are functions of the state.

    What the surroundings do while the sketch is inside [mqttPublishValue]
    (the link may be down, a packet may be waiting for the callback) is an
    argument of every function that publishes, a [pump]. The handlers
    [rotaryClick] and [rotaryLongPressStart] are the gestures during which
    the link is up and no packet waits; [rotaryClickWith] and
    [rotaryLongPressStartWith] take the pumps of their publishes. *)

From Stdlib Require Import ZArith Lia ZifyBool Ascii.
From stdpp Require Import base list gmap strings pretty.

Local Open Scope Z_scope.

(** ** Constants of the sketch *)

(** [minLampValue] is declared by the sketch and used nowhere: the knob block
    of [loop] has the literal 2. [displayAlwaysOn] is a global that is never
    assigned. *)
Definition numberOfLamps : nat := 3.
Definition fadeSpeed : Z := 7.
Definition displayAfterglow : Z := 4.
Definition minLampValue : Z := 2.
Definition displayAlwaysOn : bool := true.

Definition mqttLampTopic : string := "crafter-lamp".
Definition mqttBrightnessTopic : string := "brightness".
Definition mqttCommandTopic : string := "command".

(** GPIO numbers of the NodeMCU pins D3, D7 and D8. *)
Definition LAMP_A_PIN : Z := 0.
Definition LAMP_B_PIN : Z := 13.
Definition LAMP_C_PIN : Z := 15.

(** ** Data model *)

Record lamp_t := mkLamp {
  pin : Z;
  isOn : bool;
  isOnDefault : bool;
  value : Z
}.

#[global] Instance lamp_t_inhabited : Inhabited lamp_t :=
  populate (mkLamp 0 false false 0).

(** What [mqttReconnect] does on the link and the serial line. *)
Inductive link_event :=
  | Connect
  | Subscribe (topic : string)
  | SerialPrint (msg : string)
  | SerialLine (msg : string)
  | Wait (ms : Z).

(** What the sketch does to its surroundings. [Publish] is a call of
    [mqttClient.publish], [Link] an act of [mqttReconnect]. *)
Inductive effect :=
  | AnalogWrite (p v : Z)
  | Delay (ms : Z)
  | Publish (topic payload : string)
  | SerialPrintln (msg : string)
  | Link (e : link_event).

(** A PUBLISH packet as the MQTT client hands it to the callback: the topic
    and the payload, which lie in the client's receive buffer as topic,
    terminator, payload (the subscription is at QoS 0), and [pBehind], the
    byte the buffer holds at index 13 from the start of the topic when the
    packet ends before that index: it was left there by an earlier packet,
    received or sent. *)
Record packet := mkPacket {
  pTopic : string;
  pPayload : string;
  pBehind : Z
}.

(** What the surroundings do during one call of [mqttPublishValue] that
    returns: whether [mqttClient.connected()] is false on entry, the state
    codes of the connection attempts that then fail before one succeeds, and
    the packet, if any, that [mqttClient.loop()] hands to the callback. *)
Record pump := mkPump {
  linkDown : bool;
  failed : list Z;
  waiting : option packet
}.

(** The link is up and nothing is waiting. *)
Definition quiet : pump := mkPump false [] None.

(** The global variables, the position register of the rotary encoder,
    the PWM duty last written to each pin, the entries of the ezTime event
    table that point to [clearDisplayAndPublishMQTT] (their due times, in
    seconds), the byte of the receive buffer behind the packet in it (see
    [packet]), and the trace of effects. *)
Record state := mkState {
  myLamps : list lamp_t;
  selectedLamp : nat;
  rotaryOldPosition : Z;
  lampsInUse : bool;
  displayConnected : bool;
  wifiConnected : bool;
  mqttConnected : bool;
  rotaryKnob : Z;
  pwm : gmap Z Z;
  scheduled : list Z;
  rxBehind : Z;
  trace : list effect
}.

Definition set_myLamps (f : list lamp_t → list lamp_t) (st : state) : state :=
  mkState (f (myLamps st)) (selectedLamp st) (rotaryOldPosition st)
    (lampsInUse st) (displayConnected st) (wifiConnected st)
    (mqttConnected st) (rotaryKnob st) (pwm st) (scheduled st)
    (rxBehind st) (trace st).

Definition set_selectedLamp (i : nat) (st : state) : state :=
  mkState (myLamps st) i (rotaryOldPosition st)
    (lampsInUse st) (displayConnected st) (wifiConnected st)
    (mqttConnected st) (rotaryKnob st) (pwm st) (scheduled st)
    (rxBehind st) (trace st).

Definition set_rotaryOldPosition (p : Z) (st : state) : state :=
  mkState (myLamps st) (selectedLamp st) p
    (lampsInUse st) (displayConnected st) (wifiConnected st)
    (mqttConnected st) (rotaryKnob st) (pwm st) (scheduled st)
    (rxBehind st) (trace st).

Definition set_lampsInUse (b : bool) (st : state) : state :=
  mkState (myLamps st) (selectedLamp st) (rotaryOldPosition st)
    b (displayConnected st) (wifiConnected st)
    (mqttConnected st) (rotaryKnob st) (pwm st) (scheduled st)
    (rxBehind st) (trace st).

Definition set_rotaryKnob (p : Z) (st : state) : state :=
  mkState (myLamps st) (selectedLamp st) (rotaryOldPosition st)
    (lampsInUse st) (displayConnected st) (wifiConnected st)
    (mqttConnected st) p (pwm st) (scheduled st)
    (rxBehind st) (trace st).

Definition set_pwm (f : gmap Z Z → gmap Z Z) (st : state) : state :=
  mkState (myLamps st) (selectedLamp st) (rotaryOldPosition st)
    (lampsInUse st) (displayConnected st) (wifiConnected st)
    (mqttConnected st) (rotaryKnob st) (f (pwm st)) (scheduled st)
    (rxBehind st) (trace st).

Definition set_scheduled (f : list Z → list Z) (st : state) : state :=
  mkState (myLamps st) (selectedLamp st) (rotaryOldPosition st)
    (lampsInUse st) (displayConnected st) (wifiConnected st)
    (mqttConnected st) (rotaryKnob st) (pwm st) (f (scheduled st))
    (rxBehind st) (trace st).

Definition set_rxBehind (b : Z) (st : state) : state :=
  mkState (myLamps st) (selectedLamp st) (rotaryOldPosition st)
    (lampsInUse st) (displayConnected st) (wifiConnected st)
    (mqttConnected st) (rotaryKnob st) (pwm st) (scheduled st)
    b (trace st).

Definition emits (es : list effect) (st : state) : state :=
  mkState (myLamps st) (selectedLamp st) (rotaryOldPosition st)
    (lampsInUse st) (displayConnected st) (wifiConnected st)
    (mqttConnected st) (rotaryKnob st) (pwm st) (scheduled st)
    (rxBehind st) (trace st ++ es).

Definition emit (e : effect) : state → state := emits [e].

(** [myLamps[i]]; the index is in range wherever the sketch reads the array
    (see [state_ok]). *)
Definition lampAt (st : state) (i : nat) : lamp_t := myLamps st !!! i.

Definition lamp_set_isOn (b : bool) (l : lamp_t) : lamp_t :=
  mkLamp (pin l) b (isOnDefault l) (value l).
Definition lamp_set_isOnDefault (b : bool) (l : lamp_t) : lamp_t :=
  mkLamp (pin l) (isOn l) b (value l).
Definition lamp_set_value (v : Z) (l : lamp_t) : lamp_t :=
  mkLamp (pin l) (isOn l) (isOnDefault l) v.

Definition set_isOn (i : nat) (b : bool) : state → state :=
  set_myLamps (alter (lamp_set_isOn b) i).
Definition set_isOnDefault (i : nat) (b : bool) : state → state :=
  set_myLamps (alter (lamp_set_isOnDefault b) i).
Definition set_value (i : nat) (v : Z) : state → state :=
  set_myLamps (alter (lamp_set_value v) i).

(** The duty a pin is driven at: the last [analogWrite] to it, 0 before the
    first one. *)
Definition output (st : state) (p : Z) : Z := default 0 (pwm st !! p).

(** The MQTT messages sent so far, oldest first. *)
Definition published (st : state) : list (string * string) :=
  omap (λ e, match e with Publish t p => Some (t, p) | _ => None end)
       (trace st).

(** ** Library primitives *)

Definition analogWrite (p v : Z) (st : state) : state :=
  emit (AnalogWrite p v) (set_pwm <[p := v]> st).

Definition delay (ms : Z) : state → state := emit (Delay ms).

Definition serialPrintln (msg : string) : state → state :=
  emit (SerialPrintln msg).

(** [rotaryKnob.write(p)] overwrites the position register of the encoder;
    turning the knob by [d] detents moves it, in 32-bit arithmetic. *)
Definition rotaryKnob_write (p : Z) : state → state := set_rotaryKnob p.

Definition wrap32 (z : Z) : Z := (z + 2 ^ 31) `mod` 2 ^ 32 - 2 ^ 31.

Definition turnKnob (d : Z) (st : state) : state :=
  set_rotaryKnob (wrap32 (rotaryKnob st + d)) st.

(** ezTime: [deleteEvent(f)] removes every entry of the event table that
    points to [f], [setEvent(f, t)] adds one. *)
Definition deleteEvent : state → state := set_scheduled (λ _, []).
Definition setEvent (t : Z) : state → state := set_scheduled (λ l, l ++ [t]).

(** Arduino [String(n)] for an integer: its decimal digits. *)
Definition String_of_Z (z : Z) : string := pretty z.

(** [String::substring(n)]: the characters from index [n] on, the empty
    string when [n] is not below the length. *)
Fixpoint substring_from (n : nat) (s : string) : string :=
  match n, s with
  | O, _ => s
  | S n', String _ s' => substring_from n' s'
  | S _, EmptyString => EmptyString
  end.

(** The bytes of a text, as the unsigned numbers they are in memory. *)
Definition char_code (c : ascii) : Z := Z.of_N (Ascii.N_of_ascii c).

Definition bytes (s : string) : list Z :=
  char_code <$> String.list_ascii_of_string s.

(** [String::toInt] is [atol]: leading white space, an optional sign, then
    the decimal digits up to the first other character; 0 when there is no
    digit; the result saturates at the bounds of a 32-bit [long]. *)
Definition isspace (c : Ascii.ascii) : bool :=
  let n := Z.of_N (Ascii.N_of_ascii c) in (n =? 32) || ((9 <=? n) && (n <=? 13)).

Definition digit_of (c : Ascii.ascii) : option Z :=
  let n := Z.of_N (Ascii.N_of_ascii c) in
  if (48 <=? n) && (n <=? 57) then Some (n - 48) else None.

Fixpoint skip_spaces (s : string) : string :=
  match s with
  | String c s' => if isspace c then skip_spaces s' else s
  | EmptyString => s
  end.

Fixpoint digits (acc : Z) (s : string) : Z :=
  match s with
  | String c s' =>
      match digit_of c with
      | Some d => digits (10 * acc + d) s'
      | None => acc
      end
  | EmptyString => acc
  end.

Definition LONG_MAX : Z := 2147483647.
Definition LONG_MIN : Z := -2147483648.

Definition toInt (s : string) : Z :=
  match skip_spaces s with
  | String "-"%char s' => Z.max LONG_MIN (- digits 0 s')
  | String "+"%char s' => Z.min LONG_MAX (digits 0 s')
  | s' => Z.min LONG_MAX (digits 0 s')
  end.

(** ** The sketch *)

(** The state when [setup] returns. The three flags say whether the display
    answered, the WiFi joined and the broker accepted the connection;
    [mqttConnected] is assigned only inside the WiFi branch, and nowhere
    after [setup]. No packet has been handled yet; each one brings the byte
    behind it. *)
Definition setup (display wifi mqtt : bool) : state :=
  mkState
    [ mkLamp LAMP_A_PIN false false 128;
      mkLamp LAMP_B_PIN false false 128;
      mkLamp LAMP_C_PIN false false 128 ]
    0%nat 128 false display wifi (wifi && mqtt) 128 ∅ [] 0 [].

Definition mqttSubscribeToMultipleTopics : list link_event :=
  [ Subscribe (mqttLampTopic +:+ "/#") ].

(** [mqttReconnect]: [connected] is what [mqttClient.connected()] says on
    entry; [attempts] are the outcomes of the calls of [mqttClient.connect]
    still to come, [None] for success and [Some rc] for a failure with state
    [rc]. The connection holds once it is made. [None] as a result: the loop
    is still running when the outcomes are used up. *)
Fixpoint mqttReconnect (connected : bool) (attempts : list (option Z))
    : option (list link_event) :=
  if connected then Some []
  else
    match attempts with
    | [] => None
    | None :: _ => Some (Connect :: mqttSubscribeToMultipleTopics)
    | Some rc :: rest =>
        option_map
          (λ evs, [ Connect; SerialPrint "MQTT failed, rc=";
                    SerialPrint (String_of_Z rc);
                    SerialLine " try again in 5 seconds"; Wait 5000 ] ++ evs)
          (mqttReconnect false rest)
    end.

(** [for(i...) lampsState = lampsState || myLamps[i].isOn]. *)
Definition lampsState (st : state) : bool :=
  foldl (λ acc i, acc || isOn (lampAt st i)) false (seq 0 numberOfLamps).

(** [mqttCallback] after its three reads: the lamp digit, the part of the
    topic behind the lamp, and the payload as a number. *)
Definition mqttDispatch (lamp : Z) (topicPart : string) (intValue : Z)
    (st : state) : state :=
  if (lamp <? 0) || (lamp >? Z.of_nat numberOfLamps - 1) then
    serialPrintln "MQTT: wrong lamp" st
  else
    let i := Z.to_nat lamp in
    if String.eqb topicPart mqttBrightnessTopic then st
    else if String.eqb topicPart mqttCommandTopic then
      if (intValue <? 0) || (intValue >? 255) then
        serialPrintln "MQTT: wrong value" st
      else if intValue >? 0 then
        let st := set_value i intValue st in
        let st := analogWrite (pin (lampAt st i)) (value (lampAt st i)) st in
        let st := rotaryKnob_write intValue st in
        let st := set_isOn i true st in
        set_lampsInUse true st
      else
        let st := analogWrite (pin (lampAt st i)) 0 st in
        let st := set_isOn i false st in
        set_lampsInUse (lampsState st) st
    else serialPrintln "MQTT: unknown topic" st.

(** [lamp = topic[strlen(mqttLampTopic) + 1] - 48], read before the payload
    is terminated. The MQTT client hands over the topic, its terminator and
    the payload as they lie one behind the other in its receive buffer, so
    for a topic of fewer than 14 characters the byte read is the topic's
    terminator, a byte of the payload, or the byte the buffer holds behind
    the packet. Bytes are unsigned, as [char] is on this board; read as
    signed, a byte above 127 gives a negative lamp instead of one above 2,
    and the same branch. *)
Definition messageLamp (topic payload : string) (st : state) : Z :=
  nth (String.length mqttLampTopic + 1)
      (bytes topic ++ 0 :: bytes payload) (rxBehind st) - 48.

(** [String(topic).substring(strlen(mqttLampTopic) + 3)]. *)
Definition topicPart (topic : string) : string :=
  substring_from (String.length mqttLampTopic + 3) topic.

(** [mqttCallback]; the payload is read as text up to its first byte that
    is no digit, which a terminator is. *)
Definition mqttCallback (topic payload : string) (st : state) : state :=
  mqttDispatch (messageLamp topic payload st) (topicPart topic)
    (toInt payload) st.

(** The MQTT client has read packet [m] into its buffer and calls the
    callback. *)
Definition receive (m : packet) (st : state) : state :=
  mqttCallback (pTopic m) (pPayload m) (set_rxBehind (pBehind m) st).

(** The outcomes of the calls of [mqttClient.connect] during a publish that
    returns: the failures, then the success. *)
Definition attempts (e : pump) : list (option Z) :=
  (Some <$> failed e) ++ [None].

(** [mqttPublishValue]: reconnect if the link is down, let the client handle
    one inbound packet ([mqttClient.loop()], which calls [mqttCallback]),
    then build the topic from [selectedLamp] and call [mqttClient.publish].
    The caller has evaluated [val] before the call. *)
Definition mqttPublishValue (e : pump) (topic val : string) (st : state)
    : state :=
  let st :=
    if linkDown e
    then emits (Link <$> default [] (mqttReconnect false (attempts e))) st
    else st in
  let st :=
    match waiting e with
    | Some m => receive m st
    | None => st
    end in
  emit (Publish (mqttLampTopic +:+ "/" +:+ String_of_Z (Z.of_nat (selectedLamp st))
                   +:+ "/" +:+ topic) val) st.

(** The body of the [for] loop of [switchLamp], [n] iterations from [i]. *)
Fixpoint fadeLoop (switchOn : bool) (n : nat) (i : Z) (st : state) : state :=
  match n with
  | O => st
  | S n' =>
      let l := lampAt st (selectedLamp st) in
      let st := analogWrite (pin l) (if switchOn then i else value l - i) st in
      fadeLoop switchOn n' (i + 1) (delay fadeSpeed st)
  end.

(** [for(i = 0; i <= value; i++)] runs [value + 1] times, not at all for a
    negative [value]. *)
Definition switchLamp (e : pump) (switchOn : bool) (st : state) : state :=
  let v := value (lampAt st (selectedLamp st)) in
  let st := fadeLoop switchOn (Z.to_nat (v + 1)) 0 st in
  let st := set_isOn (selectedLamp st) switchOn st in
  if mqttConnected st then
    if switchOn then
      mqttPublishValue e mqttBrightnessTopic
        (String_of_Z (value (lampAt st (selectedLamp st)))) st
    else mqttPublishValue e mqttBrightnessTopic "0" st
  else st.

Definition clearDisplayAndPublishMQTT (e : pump) (st : state) : state :=
  if mqttConnected st then
    mqttPublishValue e mqttBrightnessTopic
      (String_of_Z (value (lampAt st (selectedLamp st)))) st
  else st.

(** ezTime [events()] at time [now]: every entry that is due is removed from
    the table and its function is called. The table never holds more than
    one entry (see [state_ok]); [e] is the pump of its publish. *)
Definition events (e : pump) (now : Z) (st : state) : state :=
  let due := filter (λ t, t ≤ now) (scheduled st) in
  let st := set_scheduled (filter (λ t, ¬ t ≤ now)) st in
  foldl (λ st _, clearDisplayAndPublishMQTT e st) st due.

(** The first block of [loop]: the knob. [now] is the time in seconds that
    [makeTime(hour(), minute(), second() + displayAfterglow, ...)] starts
    from. *)
Definition loopKnob (now : Z) (st : state) : state :=
  if isOn (lampAt st (selectedLamp st)) then
    let rotaryNewPosition := rotaryKnob st in
    if negb (rotaryNewPosition =? rotaryOldPosition st) then
      let '(st, rotaryNewPosition) :=
        if rotaryNewPosition <? 2 then (rotaryKnob_write 2 st, 2)
        else (st, rotaryNewPosition) in
      let '(st, rotaryNewPosition) :=
        if rotaryNewPosition >? 255 then (rotaryKnob_write 255 st, 255)
        else (st, rotaryNewPosition) in
      let st := set_value (selectedLamp st) rotaryNewPosition st in
      let st := set_rotaryOldPosition rotaryNewPosition st in
      let st := analogWrite (pin (lampAt st (selectedLamp st)))
                            (value (lampAt st (selectedLamp st))) st in
      let st := deleteEvent st in
      setEvent (now + displayAfterglow) st
    else st
  else st.

(** [rotaryClick]; [e] is the pump of the publish that ends its fade. *)
Definition rotaryClickWith (e : pump) (st : state) : state :=
  if isOn (lampAt st (selectedLamp st)) then
    let st := switchLamp e false st in
    set_lampsInUse (lampsState st) st
  else
    let st := if negb (lampsInUse st) then set_lampsInUse true st else st in
    switchLamp e true st.

(** The click during which the link is up and no packet arrives. *)
Definition rotaryClick (st : state) : state := rotaryClickWith quiet st.

Definition rotaryDoubleClick (st : state) : state :=
  let st := set_selectedLamp (selectedLamp st + 1)%nat st in
  let st := if (numberOfLamps <=? selectedLamp st)%nat
            then set_selectedLamp 0%nat st else st in
  rotaryKnob_write (value (lampAt st (selectedLamp st))) st.

(** [rotaryLongPressStart]; [es i] is the pump of the publish that ends the
    fade of lamp [i]. *)
Definition rotaryLongPressStartWith (es : nat → pump) (st : state) : state :=
  if lampsInUse st then
    let st :=
      foldl (λ st i,
               let st := set_isOnDefault i (isOn (lampAt st i)) st in
               if isOn (lampAt st i)
               then switchLamp (es i) false (set_selectedLamp i st)
               else st)
            st (seq 0 numberOfLamps) in
    let st :=
      if displayConnected st then
        if displayAlwaysOn then set_selectedLamp 0%nat st else st
      else st in
    set_lampsInUse false st
  else
    let st :=
      foldl (λ st i,
               let st := set_isOn i (isOnDefault (lampAt st i)) st in
               if isOn (lampAt st i)
               then switchLamp (es i) (isOn (lampAt st i)) (set_selectedLamp i st)
               else st)
            st (seq 0 numberOfLamps) in
    let st := set_selectedLamp 0%nat st in
    set_lampsInUse true st.

(** The long press during which the link is up and no packet arrives. *)
Definition rotaryLongPressStart (st : state) : state :=
  rotaryLongPressStartWith (λ _, quiet) st.

(** One pass of [loop] in which the button reports no gesture and the
    [mqttClient.loop()] that ends the pass has no packet: the knob, then the
    due events. *)
Definition loop (e : pump) (now : Z) (st : state) : state :=
  events e now (loopKnob now st).

(** ** Runs of the control loop *)

(** What can happen between two states: the user turns the knob, [loop]
    polls the knob, the button library reports a gesture, ezTime runs the due
    events, the MQTT client delivers a packet from [loop]. The gestures and
    the events come with the pumps of their publishes. [loop] does these in a
    fixed order; the reachable states below allow any order. *)
Inductive input :=
  | Turn (d : Z)
  | KnobPoll (now : Z)
  | Click (e : pump)
  | DoubleClick
  | LongPressStart (es : nat → pump)
  | Events (e : pump) (now : Z)
  | Message (m : packet).

Definition step (i : input) : state → state :=
  match i with
  | Turn d => turnKnob d
  | KnobPoll now => loopKnob now
  | Click e => rotaryClickWith e
  | DoubleClick => rotaryDoubleClick
  | LongPressStart es => rotaryLongPressStartWith es
  | Events e now => events e now
  | Message m => receive m
  end.

Inductive reachable : state → Prop :=
  | reachable_setup display wifi mqtt : reachable (setup display wifi mqtt)
  | reachable_step i st : reachable st → reachable (step i st).

(** An input during which no packet is handled inside a publish: packets
    reach the callback from [loop] only. *)
Definition calm_input (i : input) : Prop :=
  match i with
  | Click e | Events e _ => waiting e = None
  | LongPressStart es => ∀ k, waiting (es k) = None
  | _ => True
  end.

(** The states reached by such inputs. *)
Inductive calm : state → Prop :=
  | calm_setup display wifi mqtt : calm (setup display wifi mqtt)
  | calm_step i st : calm_input i → calm st → calm (step i st).

(** ** Vocabulary of the properties *)

(** A ramp on pin [p]: each level is written and held for [fadeSpeed]
    milliseconds. *)
Definition rampTrace (p : Z) (levels : list Z) : list effect :=
  levels ≫= λ k, [AnalogWrite p k; Delay fadeSpeed].

(** The levels the loop of [switchLamp] writes in [n] iterations from [i]. *)
Fixpoint fadeLevels (switchOn : bool) (v : Z) (n : nat) (i : Z) : list Z :=
  match n with
  | O => []
  | S n' => (if switchOn then i else v - i) :: fadeLevels switchOn v n' (i + 1)
  end.

(** The topic a publish goes to while lamp [i] is selected. *)
Definition brightnessTopicOf (i : nat) : string :=
  mqttLampTopic +:+ "/" +:+ String_of_Z (Z.of_nat i) +:+ "/" +:+ mqttBrightnessTopic.

(** The lamp a topic names: the byte at index [strlen(mqttLampTopic) + 1] of
    its text, less 48. The callback reads this byte from the topic when the
    topic has it, and for a topic of 13 characters reads the terminator,
    which is the 0 here; what it reads for a shorter topic is given by
    [messageLamp]. *)
Definition topicLamp (topic : string) : Z :=
  nth (String.length mqttLampTopic + 1) (bytes topic) 0 - 48.

(** Two states that differ in nothing but the trace of effects. *)
Definition same_control (st st' : state) : Prop :=
  myLamps st' = myLamps st ∧ selectedLamp st' = selectedLamp st ∧
  rotaryOldPosition st' = rotaryOldPosition st ∧
  lampsInUse st' = lampsInUse st ∧
  displayConnected st' = displayConnected st ∧
  wifiConnected st' = wifiConnected st ∧
  mqttConnected st' = mqttConnected st ∧
  rotaryKnob st' = rotaryKnob st ∧ pwm st' = pwm st ∧
  scheduled st' = scheduled st ∧ rxBehind st' = rxBehind st.

(** What holds of one lamp in every state the sketch can be in. *)
Definition lamp_ok (st : state) (l : lamp_t) : Prop :=
  1 ≤ value l ≤ 255 ∧
  (isOn l = true → output st (pin l) = value l).

Record state_ok (st : state) : Prop := mkStateOk {
  ok_pins : pin <$> myLamps st = [LAMP_A_PIN; LAMP_B_PIN; LAMP_C_PIN];
  ok_selected : (selectedLamp st < numberOfLamps)%nat;
  ok_old : 2 ≤ rotaryOldPosition st ≤ 255;
  ok_lamps : Forall (lamp_ok st) (myLamps st);
  ok_pending : (length (scheduled st) ≤ 1)%nat
}.

(** What holds of one lamp, and of the state, as long as no packet is
    handled inside a publish. *)
Definition lamp_calm (st : state) (l : lamp_t) : Prop :=
  1 ≤ value l ≤ 255 ∧
  (isOn l = false → output st (pin l) = 0) ∧
  (isOn l = true → output st (pin l) = value l ∧ lampsInUse st = true).

Record state_calm (st : state) : Prop := mkStateCalm {
  calm_pins : pin <$> myLamps st = [LAMP_A_PIN; LAMP_B_PIN; LAMP_C_PIN];
  calm_selected : (selectedLamp st < numberOfLamps)%nat;
  calm_old : 2 ≤ rotaryOldPosition st ≤ 255;
  calm_lamps : Forall (lamp_calm st) (myLamps st);
  calm_pending : (length (scheduled st) ≤ 1)%nat
}.

(** One failed attempt of [mqttReconnect], and a reconnect that succeeds
    after the failures [rcs]. *)
Definition retry (rc : Z) : list link_event :=
  [ Connect; SerialPrint "MQTT failed, rc="; SerialPrint (String_of_Z rc);
    SerialLine " try again in 5 seconds"; Wait 5000 ].

Definition reconnected (rcs : list Z) : list link_event :=
  (rcs ≫= retry) ++ Connect :: mqttSubscribeToMultipleTopics.

(** The milliseconds a run of events spends waiting. *)
Definition waited (evs : list link_event) : Z :=
  foldr (λ e acc, match e with Wait ms => ms + acc | _ => acc end) 0 evs.

(** What [mqttPublishValue] does before it handles a packet and publishes:
    nothing while the link is up. *)
Definition linkTrace (e : pump) : list effect :=
  if linkDown e then Link <$> reconnected (failed e) else [].

(** The state [switchLamp] leaves when its fade is done and the flag is
    set, before it publishes. *)
Definition fadedLamp (switchOn : bool) (st : state) : state :=
  let i := selectedLamp st in
  let l := lampAt st i in
  mkState (alter (lamp_set_isOn switchOn) i (myLamps st)) i
    (rotaryOldPosition st) (lampsInUse st) (displayConnected st)
    (wifiConnected st) (mqttConnected st) (rotaryKnob st)
    (<[pin l := if switchOn then value l else 0]> (pwm st)) (scheduled st)
    (rxBehind st)
    (trace st
       ++ rampTrace (pin l)
            (if switchOn then seqZ 0 (value l + 1)
             else reverse (seqZ 0 (value l + 1)))).

(** [switchLamp] in closed form when no packet is handled in its publish:
    the selected lamp's flag, the duty its pin ends at, the ramp, the
    reconnect and the publish. *)
Definition faded (e : pump) (switchOn : bool) (st : state) : state :=
  let i := selectedLamp st in
  let l := lampAt st i in
  mkState (alter (lamp_set_isOn switchOn) i (myLamps st)) i
    (rotaryOldPosition st) (lampsInUse st) (displayConnected st)
    (wifiConnected st) (mqttConnected st) (rotaryKnob st)
    (<[pin l := if switchOn then value l else 0]> (pwm st)) (scheduled st)
    (rxBehind st)
    (trace st
       ++ rampTrace (pin l)
            (if switchOn then seqZ 0 (value l + 1)
             else reverse (seqZ 0 (value l + 1)))
       ++ (if mqttConnected st
           then linkTrace e
                ++ [Publish (brightnessTopicOf i)
                      (if switchOn then String_of_Z (value l) else "0")]
           else [])).

(** The test of [loop] that a knob movement passes: the selected lamp is on
    and the encoder is not where it was last read. *)
Definition moved (st : state) : bool :=
  isOn (lampAt st (selectedLamp st))
  && negb (rotaryKnob st =? rotaryOldPosition st).

(** One knob movement of a burst: the knob is turned by [delta], the pass of
    [loop] at time [seen] reads it, and [loop] passes again at the times
    [idle] before the knob is turned next. *)
Record movement := mkMovement { delta : Z; seen : Z; idle : list Z }.

(** [es t] is the pump of the pass of [loop] at time [t]. *)
Definition play (es : Z → pump) (m : movement) (st : state) : state :=
  foldl (λ st t, loop (es t) t st)
        (loop (es (seen m)) (seen m) (turnKnob (delta m) st)) (idle m).

(** A burst: every turn is one that [loop] reads as a movement, so made
    while the selected lamp is on, and the passes after it come before its
    quiet period is over. *)
Fixpoint burst (es : Z → pump) (st : state) (ms : list movement) : Prop :=
  match ms with
  | [] => True
  | m :: ms' =>
      moved (turnKnob (delta m) st) = true ∧
      Forall (λ t, t < seen m + displayAfterglow) (idle m) ∧
      burst es (play es m st) ms'
  end.



(** An effect that does not reach the broker: a write to a pin, a delay or
    a log line. *)
Definition silent (x : effect) : Prop :=
  match x with Publish _ _ | Link _ => False | _ => True end.

(** ** The display and the helpers of the sketch *)

(** A [uint8_t] parameter keeps the low eight bits of its argument. *)
Definition uint8 (z : Z) : Z := z `mod` 256.

(** [n] rounds of [leadingSpaces = leadingSpaces + " "]. *)
Fixpoint padLoop (n : nat) (leadingSpaces : string) : string :=
  match n with
  | O => leadingSpaces
  | S n' => padLoop n' (leadingSpaces +:+ " ")
  end.

(** [for(int i = numberAsString.length(); i < width; i++)] runs
    [width - length] times. *)
Definition getStringWithSpaces (number width : Z) : string :=
  let number := uint8 number in
  let width := uint8 width in
  let numberAsString := String_of_Z number in
  let len := Z.of_nat (String.length numberAsString) in
  let leadingSpaces :=
    if len <? width then padLoop (Z.to_nat (width - len)) "" else "" in
  leadingSpaces +:+ numberAsString.

Definition SCREEN_WIDTH : Z := 128.

(** The calls the sketch makes on the display; [true] is [WHITE], [false] is
    [BLACK]; [SetFont true] selects the large clock font. *)
Inductive draw :=
  | FillRect (x y w h : Z) (color : bool)
  | SetFont (large : bool)
  | SetCursor (x y : Z)
  | SetTextColor (color background : bool)
  | Print (text : string)
  | Display.

(** The two published bodies of Arduino's [map]: the one of the language
    reference, and the rounding one of later ESP8266 cores. Division is that
    of C. *)
Definition arduinoMap (x in_min in_max out_min out_max : Z) : Z :=
  (x - in_min) * (out_max - out_min) ÷ (in_max - in_min) + out_min.

Definition esp8266Map (x in_min in_max out_min out_max : Z) : Z :=
  let dividend := out_max - out_min in
  let divisor := in_max - in_min in
  let delta := x - in_min in
  (delta * dividend + divisor ÷ 2) ÷ divisor + out_min.

Section Display.

(** [map] comes from the Arduino core of the board. *)
Variable map : Z → Z → Z → Z → Z → Z.

(** The body of the [for] loop of [displayLampState] for lamp [i]. *)
Definition lampCell (st : state) (i : nat) : list draw :=
  [ if (i =? selectedLamp st)%nat then SetTextColor false true
    else SetTextColor true false;
    Print " ";
    Print (String (ascii_of_nat (65 + i)) "");
    Print ":" ]
  ++ (if isOn (lampAt st i)
      then [ Print (getStringWithSpaces
                      (map (value (lampAt st i)) 1 255 1 100) 3);
             Print "%" ]
      else [ Print " aus" ]).

Definition displayLampState (st : state) : list draw :=
  [ FillRect 0 56 SCREEN_WIDTH 8 false; SetFont false; SetCursor 0 56 ]
  ++ (seq 0 numberOfLamps ≫= lampCell st)
  ++ [ Display ].

Definition displayRotaryValue (st : state) : list draw :=
  [ FillRect 0 8 SCREEN_WIDTH 48 false;
    FillRect 10 23 108 18 true;
    FillRect 14 27 100 10 false;
    FillRect 14 27
      (map (value (lampAt st (selectedLamp st))) 1 255 1 100) 10 true;
    Display ].

End Display.

(** The text a list of display calls prints, in order. *)
Definition printed (ds : list draw) : string :=
  foldr (λ d s, match d with Print t => t +:+ s | _ => s end) "" ds.

(** Rectangle [a] lies inside rectangle [b] (both as x, y, w, h). *)
Definition inside (a b : Z * Z * Z * Z) : Prop :=
  let '(ax, ay, aw, ah) := a in
  let '(bx, by', bw, bh) := b in
  bx ≤ ax ∧ ax + aw ≤ bx + bw ∧ by' ≤ ay ∧ ay + ah ≤ by' + bh.

(** ** More vocabulary *)

(** What the sketch does on the link: a publish is made with the broker
    connection made at start-up, on the brightness topic of one of the
    lamps, with a brightness as payload; a reconnect is made with the broker
    connection made at start-up. *)
Definition own_publish (connected : bool) (e : effect) : Prop :=
  match e with
  | Publish t p =>
      connected = true ∧
      ∃ (i : nat) (v : Z),
        (i < numberOfLamps)%nat ∧ 0 ≤ v ≤ 255 ∧
        t = brightnessTopicOf i ∧ p = String_of_Z v
  | Link _ => connected = true
  | _ => True
  end.

Definition clamp (z : Z) : Z := Z.max 2 (Z.min 255 z).

(** Every publish and every reconnect in the trace is as [own_publish] has
    it. *)
Definition trace_own (st : state) : Prop :=
  Forall (own_publish (mqttConnected st)) (trace st).

(** The rectangles of a list of display calls, as (x, y, w, h). *)
Definition rects (ds : list draw) : list (Z * Z * Z * Z) :=
  omap (λ d, match d with FillRect x y w h _ => Some (x, y, w, h) | _ => None end)
       ds.

(** The calls that switch to inverse text. *)
Definition isHighlight (d : draw) : bool :=
  match d with SetTextColor false true => true | _ => false end.

Definition highlights (ds : list draw) : nat :=
  length (List.filter isHighlight ds).

(** What [map] has to do for the display code: a brightness in [1,255]
    becomes a percentage in [1,100]. *)
Definition percent_map (map : Z → Z → Z → Z → Z → Z) : Prop :=
  ∀ v, 1 ≤ v ≤ 255 → 1 ≤ map v 1 255 1 100 ≤ 100.

(** [n] spaces. *)
Fixpoint spaces (n : nat) : string :=
  match n with
  | O => ""
  | S n' => String " " (spaces n')
  end.

(** * Properties *)

(** ** The fade *)

Lemma fadeLoop_eq switchOn n : ∀ i st,
  fadeLoop switchOn n i st =
    let l := lampAt st (selectedLamp st) in
    let ks := fadeLevels switchOn (value l) n i in
    mkState (myLamps st) (selectedLamp st) (rotaryOldPosition st)
      (lampsInUse st) (displayConnected st) (wifiConnected st)
      (mqttConnected st) (rotaryKnob st)
      (foldl (λ m k, <[pin l := k]> m) (pwm st) ks) (scheduled st)
      (rxBehind st) (trace st ++ rampTrace (pin l) ks).
Proof.
  induction n as [|n IH]; intros i st.
  - destruct st; cbn. by rewrite app_nil_r.
  - cbn [fadeLoop]. rewrite IH. destruct st; cbn.
    f_equal. by rewrite <- !app_assoc.
Qed.

Lemma fadeLevels_length switchOn v n : ∀ i,
  length (fadeLevels switchOn v n i) = n.
Proof. induction n; intros; cbn; auto. Qed.

Lemma fadeLevels_on v n : ∀ i, fadeLevels true v n i = seqZ i (Z.of_nat n).
Proof.
  induction n as [|n IH]; intros i; [done|].
  cbn [fadeLevels]. rewrite IH, (seqZ_cons i) by lia.
  do 2 f_equal; lia.
Qed.

Lemma fadeLevels_off v n : ∀ i,
  fadeLevels false v n i = (λ k, v - k) <$> seqZ i (Z.of_nat n).
Proof.
  induction n as [|n IH]; intros i; [done|].
  cbn [fadeLevels]. rewrite IH, (seqZ_cons i) by lia.
  cbn. do 3 f_equal; lia.
Qed.

Lemma fade_down_levels v : 0 ≤ v →
  fadeLevels false v (Z.to_nat (v + 1)) 0 = reverse (seqZ 0 (v + 1)).
Proof.
  intros Hv. rewrite fadeLevels_off, Z2Nat.id by lia.
  apply list_eq; intros k.
  rewrite list_lookup_fmap.
  destruct (decide (k < Z.to_nat (v + 1))%nat) as [Hk|Hk].
  - rewrite reverse_lookup by (rewrite length_seqZ; lia).
    rewrite length_seqZ.
    rewrite !lookup_seqZ_lt by lia. cbn. f_equal. lia.
  - rewrite !lookup_ge_None_2; [done| |].
    + rewrite length_reverse, length_seqZ; lia.
    + rewrite length_seqZ; lia.
Qed.

Lemma fade_pwm_last (p : Z) (ks : list Z) (m : gmap Z Z) k :
  foldl (λ m k, <[p := k]> m) m (ks ++ [k]) = <[p := k]> m.
Proof.
  rewrite foldl_app. cbn. revert m.
  induction ks as [|k' ks IH]; intros m; cbn; [done|].
  rewrite IH. apply insert_insert_eq.
Qed.

Lemma lampAt_alter_isOn b i (ls : list lamp_t) :
  (i < length ls)%nat →
  alter (lamp_set_isOn b) i ls !!! i = lamp_set_isOn b (ls !!! i).
Proof.
  intros Hi. apply list_lookup_total_correct.
  rewrite list_lookup_alter_eq.
  destruct (lookup_lt_is_Some_2 ls i Hi) as [l Hl].
  by rewrite Hl, (list_lookup_total_correct _ _ _ Hl).
Qed.

(** The reconnect of a publish that returns. *)
Lemma mqttReconnect_attempts (rcs : list Z) :
  mqttReconnect false ((Some <$> rcs) ++ [None]) = Some (reconnected rcs).
Proof.
  induction rcs as [|rc rcs IH]; [reflexivity|].
  cbn [fmap list_fmap app mqttReconnect]. rewrite IH. reflexivity.
Qed.

(** [mqttPublishValue] when no packet is waiting. *)
Lemma mqttPublishValue_calm e topic val st :
  waiting e = None →
  mqttPublishValue e topic val st =
    emits (linkTrace e
           ++ [Publish (mqttLampTopic +:+ "/" +:+ String_of_Z (Z.of_nat (selectedLamp st))
                          +:+ "/" +:+ topic) val]) st.
Proof.
  intros Hw. unfold mqttPublishValue, linkTrace, attempts. rewrite Hw.
  rewrite mqttReconnect_attempts.
  destruct st; destruct (linkDown e); unfold emit, emits; cbn;
    rewrite <- ?app_assoc; reflexivity.
Qed.

(** [switchLamp] is the fade, then the publish. *)
Lemma switchLamp_fadedLamp e switchOn st :
  (selectedLamp st < length (myLamps st))%nat →
  0 ≤ value (lampAt st (selectedLamp st)) →
  switchLamp e switchOn st =
    let v := value (lampAt st (selectedLamp st)) in
    if mqttConnected st
    then mqttPublishValue e mqttBrightnessTopic
           (if switchOn then String_of_Z v else "0") (fadedLamp switchOn st)
    else fadedLamp switchOn st.
Proof.
  intros Hi Hv. unfold switchLamp. rewrite fadeLoop_eq. cbn zeta.
  set (l := lampAt st (selectedLamp st)) in *.
  assert (Hks : ∃ ks,
    fadeLevels switchOn (value l) (Z.to_nat (value l + 1)) 0
      = ks ++ [if switchOn then value l else 0] ∧
    ks ++ [if switchOn then value l else 0]
      = if switchOn then seqZ 0 (value l + 1)
        else reverse (seqZ 0 (value l + 1))).
  { destruct switchOn.
    - exists (seqZ 0 (value l)). rewrite fadeLevels_on, Z2Nat.id by lia.
      rewrite (seqZ_app 0 (value l) 1) by lia. done.
    - exists (reverse (seqZ 1 (value l))). rewrite fade_down_levels by done.
      rewrite (seqZ_cons 0) by lia. rewrite reverse_cons.
      split; do 3 f_equal; lia. }
  destruct Hks as (ks & -> & Hks).
  rewrite fade_pwm_last, Hks.
  unfold set_isOn, set_myLamps, fadedLamp, lampAt.
  cbn. rewrite lampAt_alter_isOn by done. cbn.
  destruct st as [ls sel old inUse dC wC mC knob pw sch rx tr]; cbn in *.
  fold l. destruct mC, switchOn; reflexivity.
Qed.

Lemma switchLamp_faded e switchOn st :
  waiting e = None →
  (selectedLamp st < length (myLamps st))%nat →
  0 ≤ value (lampAt st (selectedLamp st)) →
  switchLamp e switchOn st = faded e switchOn st.
Proof.
  intros Hw Hi Hv. rewrite switchLamp_fadedLamp by done. cbn zeta.
  unfold faded. destruct (mqttConnected st) eqn:Hc.
  - rewrite mqttPublishValue_calm by done.
    unfold fadedLamp, emits, brightnessTopicOf. cbn.
    rewrite <- !app_assoc, Hc. reflexivity.
  - unfold fadedLamp. by rewrite app_nil_r, Hc.
Qed.

(** ** The invariants *)

#[local] Arguments switchLamp : simpl never.
#[local] Arguments mqttPublishValue : simpl never.
#[local] Arguments rampTrace : simpl never.
#[local] Arguments linkTrace : simpl never.
#[local] Arguments seqZ : simpl never.
#[local] Arguments String_of_Z : simpl never.
#[local] Arguments brightnessTopicOf : simpl never.
#[local] Arguments lookup : simpl never.
#[local] Arguments insert : simpl never.

(** Name the three lamps of a state that satisfies [state_ok] or
    [state_calm]. *)
Ltac open_lamps st Hok :=
  destruct st as [ls sel old inUse dC wC mC knob pw sch rx tr];
  destruct Hok as [Hpins Hsel Hold Hlamps Hpend];
  cbn in Hpins, Hsel, Hold, Hlamps, Hpend;
  destruct ls as [|[pa oa da va] [|[pb ob db vb] [|[pc oc dc vc] [|? ?]]]];
  try discriminate Hpins;
  cbn in Hpins; injection Hpins as -> -> ->;
  apply Forall_cons in Hlamps as [Ha Hlamps];
  apply Forall_cons in Hlamps as [Hb Hlamps];
  apply Forall_cons in Hlamps as [Hc _];
  unfold lamp_ok, lamp_calm, output in Ha, Hb, Hc; cbn in Ha, Hb, Hc.

(** The same, one case per selected lamp. *)
Ltac open_state st Hok :=
  destruct st as [ls sel old inUse dC wC mC knob pw sch rx tr];
  destruct Hok as [Hpins Hsel Hold Hlamps Hpend];
  cbn in Hpins, Hsel, Hold, Hlamps, Hpend;
  destruct ls as [|[pa oa da va] [|[pb ob db vb] [|[pc oc dc vc] [|? ?]]]];
  try discriminate Hpins;
  cbn in Hpins; injection Hpins as -> -> ->;
  apply Forall_cons in Hlamps as [Ha Hlamps];
  apply Forall_cons in Hlamps as [Hb Hlamps];
  apply Forall_cons in Hlamps as [Hc _];
  unfold lamp_ok, lamp_calm, output in Ha, Hb, Hc; cbn in Ha, Hb, Hc;
  destruct sel as [|[|[|?]]]; [ | | | unfold numberOfLamps in Hsel; lia ].

Ltac close_ok :=
  split; cbn;
  [ reflexivity
  | unfold numberOfLamps in *; lia
  | lia
  | repeat (apply Forall_cons_2; [|try apply Forall_nil]);
    unfold lamp_ok, lamp_calm, output; cbn;
    repeat (rewrite lookup_insert_eq || rewrite lookup_insert_ne by done);
    cbn; intuition (try congruence; try lia)
  | try lia ].

Ltac split_ifs :=
  repeat (match goal with
          | |- context [if ?b then _ else _] => destruct b eqn:?
          end; cbn).

Ltac fade_all :=
  repeat (rewrite switchLamp_faded by (first [solve [auto] | cbn; lia]);
          unfold faded; cbn).

Ltac three_lamps st H :=
  destruct st as [ls sel old inUse dC wC mC knob pw sch rx tr]; cbn in H;
  destruct ls as [|[pa oa da va] [|[pb ob db vb] [|[pc oc dc vc] [|? ?]]]];
  try discriminate H; clear H.

Lemma state_calm_ok st : state_calm st → state_ok st.
Proof. intros Hok. open_lamps st Hok; close_ok. Qed.

Lemma state_ok_length st : state_ok st → length (myLamps st) = numberOfLamps.
Proof.
  intros [Hpins _ _ _ _]. by rewrite <- (length_fmap pin), Hpins.
Qed.

Lemma lampAt_ok st i :
  state_ok st → (i < numberOfLamps)%nat → lamp_ok st (lampAt st i).
Proof.
  intros Hok Hi. pose proof (state_ok_length st Hok) as Hlen.
  destruct Hok as [_ _ _ Hlamps _]. unfold lampAt.
  destruct (lookup_lt_is_Some_2 (myLamps st) i) as [l Hl]; [lia|].
  rewrite (list_lookup_total_correct _ _ _ Hl).
  by apply (Forall_lookup_1 _ _ _ _ Hlamps Hl).
Qed.

Lemma lampAt_calm st i :
  state_calm st → (i < numberOfLamps)%nat → lamp_calm st (lampAt st i).
Proof.
  intros Hok Hi.
  pose proof (state_ok_length st (state_calm_ok st Hok)) as Hlen.
  destruct Hok as [_ _ _ Hlamps _]. unfold lampAt.
  destruct (lookup_lt_is_Some_2 (myLamps st) i) as [l Hl]; [lia|].
  rewrite (list_lookup_total_correct _ _ _ Hl).
  by apply (Forall_lookup_1 _ _ _ _ Hlamps Hl).
Qed.

(** *** What every run keeps *)

Lemma setup_ok display wifi mqtt : state_ok (setup display wifi mqtt).
Proof. close_ok. Qed.

Lemma turnKnob_ok d st : state_ok st → state_ok (turnKnob d st).
Proof. intros Hok. open_lamps st Hok; close_ok. Qed.

Lemma rotaryDoubleClick_ok st : state_ok st → state_ok (rotaryDoubleClick st).
Proof. intros Hok. open_state st Hok; close_ok. Qed.

Lemma loopKnob_ok now st : state_ok st → state_ok (loopKnob now st).
Proof.
  intros Hok. open_state st Hok; unfold loopKnob; cbn.
  all: split_ifs; close_ok.
Qed.

Lemma emits_ok es st : state_ok st → state_ok (emits es st).
Proof. intros Hok. open_lamps st Hok; close_ok. Qed.

Lemma set_rxBehind_ok b st : state_ok st → state_ok (set_rxBehind b st).
Proof. intros Hok. open_lamps st Hok; close_ok. Qed.

Lemma set_lampsInUse_ok b st : state_ok st → state_ok (set_lampsInUse b st).
Proof. intros Hok. open_lamps st Hok; close_ok. Qed.

Lemma set_selectedLamp_ok i st :
  (i < numberOfLamps)%nat → state_ok st → state_ok (set_selectedLamp i st).
Proof. intros Hi Hok. open_lamps st Hok; close_ok. Qed.

Lemma mqttDispatch_ok lamp part v st :
  state_ok st → state_ok (mqttDispatch lamp part v st).
Proof.
  intros Hok. unfold mqttDispatch.
  destruct ((lamp <? 0) || (lamp >? Z.of_nat numberOfLamps - 1)) eqn:Hl.
  { open_lamps st Hok; close_ok. }
  destruct (String.eqb part mqttBrightnessTopic); [done|].
  destruct (String.eqb part mqttCommandTopic).
  2: { open_lamps st Hok; close_ok. }
  destruct ((v <? 0) || (v >? 255)) eqn:Hv.
  { open_lamps st Hok; close_ok. }
  assert (lamp = 0 ∨ lamp = 1 ∨ lamp = 2) as [-> | [-> | ->]]
    by (unfold numberOfLamps in Hl; lia).
  all: destruct (v >? 0) eqn:Hv0.
  all: open_lamps st Hok; cbn; destruct oa, ob, oc; cbn; close_ok.
Qed.

Lemma receive_ok m st : state_ok st → state_ok (receive m st).
Proof. intros Hok. by apply mqttDispatch_ok, set_rxBehind_ok. Qed.

Lemma mqttPublishValue_ok e topic val st :
  state_ok st → state_ok (mqttPublishValue e topic val st).
Proof.
  intros Hok. unfold mqttPublishValue. apply emits_ok.
  destruct (waiting e) as [m|]; [apply receive_ok|];
    destruct (linkDown e); try done; by apply emits_ok.
Qed.

Lemma fadedLamp_ok switchOn st : state_ok st → state_ok (fadedLamp switchOn st).
Proof.
  intros Hok. open_state st Hok; unfold fadedLamp; cbn.
  all: destruct switchOn; close_ok.
Qed.

Lemma switchLamp_ok e switchOn st :
  state_ok st → state_ok (switchLamp e switchOn st).
Proof.
  intros Hok. rewrite switchLamp_fadedLamp.
  - cbn zeta. destruct (mqttConnected st);
      [apply mqttPublishValue_ok|]; by apply fadedLamp_ok.
  - rewrite (state_ok_length st Hok). apply Hok.
  - destruct (lampAt_ok st (selectedLamp st) Hok) as [Hv _]; [apply Hok|lia].
Qed.

Lemma clearDisplayAndPublishMQTT_ok e st :
  state_ok st → state_ok (clearDisplayAndPublishMQTT e st).
Proof.
  intros Hok. unfold clearDisplayAndPublishMQTT.
  destruct (mqttConnected st); [by apply mqttPublishValue_ok|done].
Qed.

Lemma events_nil e now st : scheduled st = [] → events e now st = st.
Proof. intros H. unfold events. destruct st; cbn in *. by subst. Qed.

Lemma events_wait e now t st :
  scheduled st = [t] → now < t → events e now st = st.
Proof.
  intros H Ht. unfold events, deleteEvent, set_scheduled.
  destruct st; cbn in *; subst.
  rewrite !filter_cons, !filter_nil.
  destruct (decide (t ≤ now)); [lia|].
  destruct (decide (¬ t ≤ now)); [reflexivity|tauto].
Qed.

Lemma events_due e now t st :
  scheduled st = [t] → t ≤ now →
  events e now st = clearDisplayAndPublishMQTT e (deleteEvent st).
Proof.
  intros H Ht. unfold events, deleteEvent, set_scheduled.
  destruct st; cbn in *; subst.
  rewrite !filter_cons, !filter_nil.
  destruct (decide (t ≤ now)); [|lia].
  destruct (decide (¬ t ≤ now)); [tauto|reflexivity].
Qed.

Lemma deleteEvent_ok st : state_ok st → state_ok (deleteEvent st).
Proof. intros Hok. open_lamps st Hok; close_ok. Qed.

Lemma events_ok e now st : state_ok st → state_ok (events e now st).
Proof.
  intros Hok.
  destruct (scheduled st) as [|t [|? ?]] eqn:Hs.
  - by rewrite events_nil.
  - destruct (decide (t ≤ now)).
    + rewrite (events_due e now t) by done.
      by apply clearDisplayAndPublishMQTT_ok, deleteEvent_ok.
    + rewrite (events_wait e now t) by (done || lia). done.
  - destruct Hok. rewrite Hs in *. cbn in *. lia.
Qed.

Lemma rotaryClickWith_ok e st : state_ok st → state_ok (rotaryClickWith e st).
Proof.
  intros Hok. unfold rotaryClickWith.
  destruct (isOn (lampAt st (selectedLamp st))).
  - by apply set_lampsInUse_ok, switchLamp_ok.
  - apply switchLamp_ok. destruct (negb (lampsInUse st)); [|done].
    by apply set_lampsInUse_ok.
Qed.

(** One round of the loop of the long press that switches off. *)
Lemma long_off_round_ok e i st :
  (i < numberOfLamps)%nat → state_ok st →
  state_ok (let st := set_isOnDefault i (isOn (lampAt st i)) st in
            if isOn (lampAt st i)
            then switchLamp e false (set_selectedLamp i st)
            else st).
Proof.
  intros Hi Hok. cbn zeta.
  assert (Hd : state_ok (set_isOnDefault i (isOn (lampAt st i)) st)).
  { open_lamps st Hok.
    destruct i as [|[|[|?]]]; [ | | | unfold numberOfLamps in Hi; lia ];
      close_ok. }
  destruct (isOn (lampAt (set_isOnDefault i (isOn (lampAt st i)) st) i));
    [|done].
  by apply switchLamp_ok, set_selectedLamp_ok.
Qed.

(** One round of the loop of the long press that restores: the flag is set
    before the fade has brought the pin to the value. *)
Lemma long_on_round_ok e i st :
  (i < numberOfLamps)%nat → state_ok st →
  state_ok (let st := set_isOn i (isOnDefault (lampAt st i)) st in
            if isOn (lampAt st i)
            then switchLamp e (isOn (lampAt st i)) (set_selectedLamp i st)
            else st).
Proof.
  intros Hi Hok. cbn zeta.
  open_lamps st Hok.
  destruct i as [|[|[|?]]]; [ | | | unfold numberOfLamps in Hi; lia ].
  - destruct da; cbn; [|close_ok].
    rewrite switchLamp_fadedLamp by (cbn; lia). cbn zeta.
    destruct mC; cbn; [apply mqttPublishValue_ok|];
      unfold fadedLamp; cbn; close_ok.
  - destruct db; cbn; [|close_ok].
    rewrite switchLamp_fadedLamp by (cbn; lia). cbn zeta.
    destruct mC; cbn; [apply mqttPublishValue_ok|];
      unfold fadedLamp; cbn; close_ok.
  - destruct dc; cbn; [|close_ok].
    rewrite switchLamp_fadedLamp by (cbn; lia). cbn zeta.
    destruct mC; cbn; [apply mqttPublishValue_ok|];
      unfold fadedLamp; cbn; close_ok.
Qed.

Lemma rotaryLongPressStartWith_ok es st :
  state_ok st → state_ok (rotaryLongPressStartWith es st).
Proof.
  intros Hok. unfold rotaryLongPressStartWith.
  change (seq 0 numberOfLamps) with [0; 1; 2]%nat. cbn [foldl].
  destruct (lampsInUse st).
  - apply set_lampsInUse_ok.
    match goal with
    | |- state_ok (if ?b then _ else ?s) =>
        assert (Hs : state_ok s); [|destruct b; [|exact Hs]]
    end.
    + apply (long_off_round_ok (es 2%nat) 2); [unfold numberOfLamps; lia|].
      apply (long_off_round_ok (es 1%nat) 1); [unfold numberOfLamps; lia|].
      apply (long_off_round_ok (es 0%nat) 0); [unfold numberOfLamps; lia|].
      exact Hok.
    + cbn match. apply set_selectedLamp_ok; [unfold numberOfLamps; lia|done].
  - apply set_lampsInUse_ok, set_selectedLamp_ok; [unfold numberOfLamps; lia|].
    apply (long_on_round_ok (es 2%nat) 2); [unfold numberOfLamps; lia|].
    apply (long_on_round_ok (es 1%nat) 1); [unfold numberOfLamps; lia|].
    apply (long_on_round_ok (es 0%nat) 0); [unfold numberOfLamps; lia|].
    exact Hok.
Qed.

Lemma step_ok i st : state_ok st → state_ok (step i st).
Proof.
  destruct i; cbn [step].
  - apply turnKnob_ok.
  - apply loopKnob_ok.
  - apply rotaryClickWith_ok.
  - apply rotaryDoubleClick_ok.
  - apply rotaryLongPressStartWith_ok.
  - apply events_ok.
  - apply receive_ok.
Qed.

Lemma reachable_ok st : reachable st → state_ok st.
Proof. induction 1; [apply setup_ok | by apply step_ok]. Qed.

Lemma loop_ok e now st : state_ok st → state_ok (loop e now st).
Proof. intros. by apply events_ok, loopKnob_ok. Qed.

(** *** What the runs keep in which no packet is handled inside a publish *)

Lemma setup_calm display wifi mqtt : state_calm (setup display wifi mqtt).
Proof. close_ok. Qed.

Lemma turnKnob_calm d st : state_calm st → state_calm (turnKnob d st).
Proof. intros Hok. open_lamps st Hok; close_ok. Qed.

Lemma rotaryDoubleClick_calm st :
  state_calm st → state_calm (rotaryDoubleClick st).
Proof. intros Hok. open_state st Hok; close_ok. Qed.

Lemma loopKnob_calm now st : state_calm st → state_calm (loopKnob now st).
Proof.
  intros Hok. open_state st Hok; unfold loopKnob; cbn.
  all: split_ifs; close_ok.
Qed.

Lemma emits_calm es st : state_calm st → state_calm (emits es st).
Proof. intros Hok. open_lamps st Hok; close_ok. Qed.

Lemma deleteEvent_calm st : state_calm st → state_calm (deleteEvent st).
Proof. intros Hok. open_lamps st Hok; close_ok. Qed.

Lemma events_calm e now st :
  waiting e = None → state_calm st → state_calm (events e now st).
Proof.
  intros Hw Hok.
  destruct (scheduled st) as [|t [|? ?]] eqn:Hs.
  - by rewrite events_nil.
  - destruct (decide (t ≤ now)).
    + rewrite (events_due e now t) by done.
      unfold clearDisplayAndPublishMQTT.
      destruct (mqttConnected (deleteEvent st)); [|by apply deleteEvent_calm].
      rewrite mqttPublishValue_calm by done.
      by apply emits_calm, deleteEvent_calm.
    + rewrite (events_wait e now t) by (done || lia). done.
  - destruct Hok. rewrite Hs in *. cbn in *. lia.
Qed.

Lemma rotaryClickWith_calm e st :
  waiting e = None → state_calm st → state_calm (rotaryClickWith e st).
Proof.
  intros Hw Hok. open_state st Hok; unfold rotaryClickWith; cbn.
  all: destruct oa, ob, oc, inUse; cbn.
  all: rewrite switchLamp_faded by (first [done | cbn; lia]); unfold faded; cbn.
  all: close_ok.
Qed.

Lemma rotaryLongPressStartWith_calm es st :
  (∀ k, waiting (es k) = None) →
  state_calm st → state_calm (rotaryLongPressStartWith es st).
Proof.
  intros Hw Hok. open_lamps st Hok; unfold rotaryLongPressStartWith; cbn.
  destruct inUse; cbn.
  - destruct oa, ob, oc; cbn; fade_all; destruct dC; cbn; close_ok.
  - destruct oa, ob, oc; try (exfalso; intuition congruence).
    destruct da, db, dc; cbn; fade_all; close_ok.
Qed.

Lemma mqttDispatch_calm lamp part v st :
  state_calm st → state_calm (mqttDispatch lamp part v st).
Proof.
  intros Hok. unfold mqttDispatch.
  destruct ((lamp <? 0) || (lamp >? Z.of_nat numberOfLamps - 1)) eqn:Hl.
  { open_lamps st Hok; close_ok. }
  destruct (String.eqb part mqttBrightnessTopic); [done|].
  destruct (String.eqb part mqttCommandTopic).
  2: { open_lamps st Hok; close_ok. }
  destruct ((v <? 0) || (v >? 255)) eqn:Hv.
  { open_lamps st Hok; close_ok. }
  assert (lamp = 0 ∨ lamp = 1 ∨ lamp = 2) as [-> | [-> | ->]]
    by (unfold numberOfLamps in Hl; lia).
  all: destruct (v >? 0) eqn:Hv0.
  all: open_lamps st Hok; cbn; destruct oa, ob, oc; cbn; close_ok.
Qed.

Lemma receive_calm m st : state_calm st → state_calm (receive m st).
Proof.
  intros Hok. apply mqttDispatch_calm. open_lamps st Hok; close_ok.
Qed.

Lemma step_calm i st : calm_input i → state_calm st → state_calm (step i st).
Proof.
  destruct i; cbn [step calm_input]; intros Hi.
  - apply turnKnob_calm.
  - apply loopKnob_calm.
  - by apply rotaryClickWith_calm.
  - apply rotaryDoubleClick_calm.
  - by apply rotaryLongPressStartWith_calm.
  - by apply events_calm.
  - apply receive_calm.
Qed.

Lemma calm_state_calm st : calm st → state_calm st.
Proof. induction 1; [apply setup_calm | by apply step_calm]. Qed.

Lemma calm_reachable st : calm st → reachable st.
Proof. induction 1; [apply reachable_setup | by apply reachable_step]. Qed.

(** A state reached by one more call is reachable. *)

Lemma set_rxBehind_same st : set_rxBehind (rxBehind st) st = st.
Proof. by destruct st. Qed.

Lemma reachable_turn d st : reachable st → reachable (turnKnob d st).
Proof. exact (reachable_step (Turn d) st). Qed.

Lemma reachable_poll now st : reachable st → reachable (loopKnob now st).
Proof. exact (reachable_step (KnobPoll now) st). Qed.

Lemma reachable_click st : reachable st → reachable (rotaryClick st).
Proof. exact (reachable_step (Click quiet) st). Qed.

Lemma reachable_double st : reachable st → reachable (rotaryDoubleClick st).
Proof. exact (reachable_step DoubleClick st). Qed.

Lemma reachable_long st : reachable st → reachable (rotaryLongPressStart st).
Proof. exact (reachable_step (LongPressStart (λ _, quiet)) st). Qed.

Lemma reachable_click_with e st :
  reachable st → reachable (rotaryClickWith e st).
Proof. exact (reachable_step (Click e) st). Qed.

Lemma reachable_long_with es st :
  reachable st → reachable (rotaryLongPressStartWith es st).
Proof. exact (reachable_step (LongPressStart es) st). Qed.

Lemma reachable_events e now st : reachable st → reachable (events e now st).
Proof. exact (reachable_step (Events e now) st). Qed.

Lemma reachable_message topic payload st :
  reachable st → reachable (mqttCallback topic payload st).
Proof.
  intros Hr.
  pose proof (reachable_step (Message (mkPacket topic payload (rxBehind st)))
                st Hr) as H.
  cbn [step] in H. unfold receive in H. cbn [pTopic pPayload pBehind] in H.
  by rewrite set_rxBehind_same in H.
Qed.

Lemma reachable_loop e now st : reachable st → reachable (loop e now st).
Proof. intros. by apply reachable_events, reachable_poll. Qed.

Lemma reachable_play es m st : reachable st → reachable (play es m st).
Proof.
  intros Hr. unfold play.
  assert (H : reachable (loop (es (seen m)) (seen m) (turnKnob (delta m) st)))
    by by apply reachable_loop, reachable_turn.
  revert H. generalize (loop (es (seen m)) (seen m) (turnKnob (delta m) st)).
  induction (idle m) as [|t ts IH]; intros s Hs; [done|].
  cbn. by apply IH, reachable_loop.
Qed.

Lemma calm_turn d st : calm st → calm (turnKnob d st).
Proof. exact (calm_step (Turn d) st I). Qed.

Lemma calm_poll now st : calm st → calm (loopKnob now st).
Proof. exact (calm_step (KnobPoll now) st I). Qed.

Lemma calm_click st : calm st → calm (rotaryClick st).
Proof. exact (calm_step (Click quiet) st eq_refl). Qed.

Lemma calm_double st : calm st → calm (rotaryDoubleClick st).
Proof. exact (calm_step DoubleClick st I). Qed.

Lemma calm_long st : calm st → calm (rotaryLongPressStart st).
Proof. exact (calm_step (LongPressStart (λ _, quiet)) st (λ _, eq_refl)). Qed.

Lemma calm_message topic payload st :
  calm st → calm (mqttCallback topic payload st).
Proof.
  intros Hr.
  pose proof (calm_step (Message (mkPacket topic payload (rxBehind st)))
                st I Hr) as H.
  cbn [step] in H. unfold receive in H. cbn [pTopic pPayload pBehind] in H.
  by rewrite set_rxBehind_same in H.
Qed.

(** ** What a publish does *)

Lemma published_app st es :
  published (emits es st) =
    published st
      ++ omap (λ e, match e with Publish t p => Some (t, p) | _ => None end) es.
Proof. unfold published, emits. cbn. by rewrite omap_app. Qed.

Lemma silent_published es :
  Forall silent es →
  omap (λ e, match e with Publish t p => Some (t, p) | _ => None end) es = [].
Proof.
  induction 1 as [|x es Hx _ IH]; [reflexivity|].
  cbn. destruct x; try done.
Qed.

Lemma rampTrace_silent p levels : Forall silent (rampTrace p levels).
Proof.
  unfold rampTrace. induction levels as [|k ks IH]; [constructor|].
  cbn. repeat (constructor; [exact I|]). exact IH.
Qed.

Lemma linkTrace_published e :
  omap (λ e, match e with Publish t p => Some (t, p) | _ => None end)
       (linkTrace e) = [].
Proof.
  unfold linkTrace. destruct (linkDown e); [|reflexivity].
  induction (reconnected (failed e)) as [|x xs IH]; [reflexivity|exact IH].
Qed.

(** What the callback leaves as it was, and what it adds to the trace. *)
Lemma mqttDispatch_shape lamp part v st :
  let st' := mqttDispatch lamp part v st in
  selectedLamp st' = selectedLamp st ∧
  mqttConnected st' = mqttConnected st ∧
  displayConnected st' = displayConnected st ∧
  rotaryOldPosition st' = rotaryOldPosition st ∧
  scheduled st' = scheduled st ∧
  ∃ h, trace st' = trace st ++ h ∧ Forall silent h.
Proof.
  unfold mqttDispatch.
  destruct st as [ls sel old inUse dC wC mC knob pw sch rx tr]; cbn.
  split_ifs; repeat (split; [reflexivity|]).
  all: first [ by exists []; rewrite app_nil_r
             | eexists [_]; split; [reflexivity|];
               by repeat constructor ].
Qed.

Lemma receive_shape m st :
  let st' := receive m st in
  selectedLamp st' = selectedLamp st ∧
  mqttConnected st' = mqttConnected st ∧
  displayConnected st' = displayConnected st ∧
  rotaryOldPosition st' = rotaryOldPosition st ∧
  scheduled st' = scheduled st ∧
  ∃ h, trace st' = trace st ++ h ∧ Forall silent h.
Proof.
  exact (mqttDispatch_shape _ (topicPart (pTopic m)) (toInt (pPayload m))
           (set_rxBehind (pBehind m) st)).
Qed.

(** [mqttPublishValue] adds to the trace the reconnect, what the callback
    does for the packet handled, and the publish, on the topic of the lamp
    selected on entry. *)
Lemma mqttPublishValue_shape e topic val st :
  let st' := mqttPublishValue e topic val st in
  selectedLamp st' = selectedLamp st ∧
  mqttConnected st' = mqttConnected st ∧
  displayConnected st' = displayConnected st ∧
  rotaryOldPosition st' = rotaryOldPosition st ∧
  scheduled st' = scheduled st ∧
  ∃ h, trace st' =
         trace st ++ linkTrace e ++ h
           ++ [Publish (mqttLampTopic +:+ "/"
                          +:+ String_of_Z (Z.of_nat (selectedLamp st))
                          +:+ "/" +:+ topic) val] ∧
       Forall silent h ∧ (waiting e = None → h = []).
Proof.
  cbn zeta. destruct (waiting e) as [m|] eqn:Hw.
  - unfold mqttPublishValue. rewrite Hw.
    set (s1 := if linkDown e then _ else st).
    assert (H1 : selectedLamp s1 = selectedLamp st ∧
                 mqttConnected s1 = mqttConnected st ∧
                 displayConnected s1 = displayConnected st ∧
                 rotaryOldPosition s1 = rotaryOldPosition st ∧
                 scheduled s1 = scheduled st ∧
                 trace s1 = trace st ++ linkTrace e).
    { subst s1. unfold linkTrace, attempts. rewrite mqttReconnect_attempts.
      destruct (linkDown e); cbn; rewrite ?app_nil_r; done. }
    destruct H1 as (Hs1 & Hc1 & Hd1 & Ho1 & He1 & Ht1).
    destruct (receive_shape m s1) as (Hs & Hc & Hd & Ho & He & h & Ht & Hh).
    cbn [emit emits selectedLamp mqttConnected displayConnected
         rotaryOldPosition scheduled trace].
    rewrite Hs, Hc, Hd, Ho, He, Hs1, Hc1, Hd1, Ho1, He1.
    repeat (split; [reflexivity|]).
    exists h. rewrite Ht, Ht1, <- !app_assoc. by repeat split.
  - rewrite mqttPublishValue_calm by done.
    cbn. repeat (split; [reflexivity|]).
    exists []. by repeat split.
Qed.

Lemma mqttPublishValue_published e topic val st :
  published (mqttPublishValue e topic val st) =
    published st
      ++ [(mqttLampTopic +:+ "/" +:+ String_of_Z (Z.of_nat (selectedLamp st))
             +:+ "/" +:+ topic, val)].
Proof.
  destruct (mqttPublishValue_shape e topic val st)
    as (_ & _ & _ & _ & _ & h & Ht & Hh & _).
  unfold published. rewrite Ht, !omap_app.
  rewrite linkTrace_published, (silent_published _ Hh).
  reflexivity.
Qed.

(** ** Remote commands *)

Lemma bytes_length s : length (bytes s) = String.length s.
Proof.
  unfold bytes. rewrite length_fmap.
  induction s as [|a s IH]; [reflexivity|]. cbn. by rewrite IH.
Qed.

Lemma substring_from_short n : ∀ s,
  (String.length s ≤ n)%nat → substring_from n s = "".
Proof.
  induction n as [|n IH]; intros [|a s] Hs; cbn in *; try reflexivity;
    try lia.
  apply IH. lia.
Qed.

(** A topic long enough to hold the lamp digit: the callback reads the
    digit from the topic. *)
Lemma messageLamp_topicLamp topic payload st :
  (String.length mqttLampTopic + 1 < String.length topic)%nat →
  messageLamp topic payload st = topicLamp topic.
Proof.
  intros Hlen. unfold messageLamp, topicLamp.
  rewrite app_nth1 by (by rewrite bytes_length).
  f_equal. apply nth_indep. by rewrite bytes_length.
Qed.

(** So it is for every topic with a subtopic. *)
Lemma messageLamp_subtopic topic payload st :
  topicPart topic ≠ "" → messageLamp topic payload st = topicLamp topic.
Proof.
  intros Hp. apply messageLamp_topicLamp.
  destruct (decide (String.length topic
                    ≤ String.length mqttLampTopic + 3)%nat) as [Hs|Hs].
  - exfalso. apply Hp. by apply substring_from_short.
  - lia.
Qed.

Lemma mqttDispatch_command (i : nat) (v : Z) (st : state) :
  (i < numberOfLamps)%nat → 0 ≤ v ≤ 255 →
  mqttDispatch (Z.of_nat i) mqttCommandTopic v st =
    if v >? 0 then
      let st := set_value i v st in
      let st := analogWrite (pin (lampAt st i)) (value (lampAt st i)) st in
      let st := rotaryKnob_write v st in
      let st := set_isOn i true st in
      set_lampsInUse true st
    else
      let st := analogWrite (pin (lampAt st i)) 0 st in
      let st := set_isOn i false st in
      set_lampsInUse (lampsState st) st.
Proof.
  intros Hi Hv. unfold mqttDispatch, numberOfLamps in *.
  replace ((Z.of_nat i <? 0) || (Z.of_nat i >? Z.of_nat 3 - 1)) with false by lia.
  replace ((v <? 0) || (v >? 255)) with false by lia.
  rewrite Nat2Z.id. reflexivity.
Qed.

(** A topic too short to have a subtopic changes nothing, whatever the byte
    is that the lamp digit is read from. *)
Lemma mqttDispatch_no_subtopic lamp v st :
  same_control st (mqttDispatch lamp "" v st).
Proof.
  unfold mqttDispatch.
  destruct ((lamp <? 0) || (lamp >? Z.of_nat numberOfLamps - 1));
    cbn; repeat split.
Qed.

(** C1, as stated, fails: with all three lamps off and the broker connected,
    the command [200] for lamp 1 switches the lamp on with a single PWM write
    and publishes nothing, where the claim has a fade and one publish of
    [200] on the brightness topic of lamp 1. *)
Lemma remote_on_publishes_nothing :
  let st := setup true true true in
  let st' := mqttCallback "crafter-lamp/1/command" "200" st in
  isOn (lampAt st' 1) = true ∧ value (lampAt st' 1) = 200 ∧
  trace st' = [AnalogWrite LAMP_B_PIN 200] ∧
  published st' = [] ∧
  published st' ≠ published st ++ [(brightnessTopicOf 1, "200")].
Proof. vm_compute. repeat split; try reflexivity. discriminate. Qed.

(** C1, amended: a command with a valid lamp digit and a payload value [v]
    in [0,255] publishes nothing and writes [v] to the lamp's pin once, with
    no ramp. For [v = 0] the lamp ends off, keeps its value, and
    [lampsInUse] is recomputed from the lamps; for [1 <= v <= 255] the lamp
    is on with value [v], the encoder position is [v] and [lampsInUse] is
    true. *)
Theorem remote_command_direct (st : state) (topic payload : string)
    (i : nat) (v : Z) :
  length (myLamps st) = numberOfLamps →
  (i < numberOfLamps)%nat →
  topicLamp topic = Z.of_nat i →
  topicPart topic = mqttCommandTopic →
  toInt payload = v →
  0 ≤ v ≤ 255 →
  let st' := mqttCallback topic payload st in
  let p := pin (lampAt st i) in
  published st' = published st ∧
  trace st' = trace st ++ [AnalogWrite p v] ∧
  output st' p = v ∧
  (v = 0 →
     isOn (lampAt st' i) = false ∧ value (lampAt st' i) = value (lampAt st i) ∧
     rotaryKnob st' = rotaryKnob st ∧ lampsInUse st' = lampsState st') ∧
  (1 ≤ v →
     isOn (lampAt st' i) = true ∧ value (lampAt st' i) = v ∧
     rotaryKnob st' = v ∧ lampsInUse st' = true).
Proof.
  intros Hlen Hi Hlamp Hpart Hpay Hv st' p. subst st' p.
  unfold mqttCallback.
  rewrite messageLamp_subtopic by (by rewrite Hpart).
  rewrite Hlamp, Hpart, Hpay.
  rewrite mqttDispatch_command by done.
  unfold published, output.
  three_lamps st Hlen.
  destruct i as [|[|[|?]]]; [ | | | unfold numberOfLamps in Hi; lia ].
  all: destruct (v >? 0) eqn:Hv0; [|replace v with 0 by lia]; cbn.
  all: rewrite omap_app, lookup_insert_eq; cbn; rewrite ?app_nil_r.
  all: repeat split; intros; try reflexivity; try lia.
Qed.

Lemma remote_command_direct_witness :
  let st := setup true true true in
  let st' := mqttCallback "crafter-lamp/1/command" "200" st in
  published st' = published st ∧ isOn (lampAt st' 1) = true.
Proof.
  pose proof (remote_command_direct (setup true true true)
    "crafter-lamp/1/command" "200" 1%nat 200) as H.
  destruct H as (H1 & _ & _ & _ & H2).
  - reflexivity.
  - unfold numberOfLamps; lia.
  - reflexivity.
  - reflexivity.
  - reflexivity.
  - lia.
  - split; [exact H1 | apply H2; lia].
Defined.

(** ** Bounds on brightness and output *)

(** C2, as stated, fails: the command [1] for lamp 0 leaves the lamp on with
    value 1, below the claimed lower bound 2. *)
Lemma remote_one_is_on_below_two :
  let st := mqttCallback "crafter-lamp/0/command" "1" (setup true true true) in
  reachable st ∧ isOn (lampAt st 0) = true ∧ value (lampAt st 0) = 1 ∧
  ¬ (2 ≤ value (lampAt st 0) ≤ 255).
Proof.
  split; [apply reachable_message, reachable_setup|].
  vm_compute. repeat split; try reflexivity. intros [H _]. by apply H.
Qed.

(** C2, amended: in every reachable state, so after every operation, a lamp
    that is on has its value in [1,255] and its pin driven at that value,
    and a value set by the knob lies in [2,255]. A lamp that is off has its
    pin driven at 0 in every state reached without a packet being handled
    inside a publish. *)
Theorem value_and_output_bounds (st : state) (i : nat) :
  (i < numberOfLamps)%nat →
  (reachable st →
     (isOn (lampAt st i) = true →
        1 ≤ value (lampAt st i) ≤ 255 ∧
        output st (pin (lampAt st i)) = value (lampAt st i)) ∧
     (∀ now, i = selectedLamp st → isOn (lampAt st i) = true →
        rotaryKnob st ≠ rotaryOldPosition st →
        let st' := loopKnob now st in
        isOn (lampAt st' i) = true ∧ 2 ≤ value (lampAt st' i) ≤ 255)) ∧
  (calm st →
     isOn (lampAt st i) = false → output st (pin (lampAt st i)) = 0).
Proof.
  intros Hi. split.
  - intros Hr. apply reachable_ok in Hr.
    destruct (lampAt_ok st i Hr Hi) as (Hv & Hon).
    split; [by intros H; split; [|apply Hon]|].
    intros now -> Hlit Hmove. unfold loopKnob. rewrite Hlit.
    replace (rotaryKnob st =? rotaryOldPosition st) with false by lia.
    cbn [negb]. clear Hv Hon.
    open_state st Hr; cbn in Hlit, Hmove; subst; cbn.
    all: split_ifs; cbn; lia.
  - intros Hc. apply calm_state_calm in Hc.
    destruct (lampAt_calm st i Hc Hi) as (_ & Hoff & _). exact Hoff.
Qed.

Lemma value_and_output_bounds_witness :
  let st := mqttCallback "crafter-lamp/0/command" "1" (setup true true true) in
  1 ≤ value (lampAt st 0) ≤ 255 ∧ output st (pin (lampAt st 1)) = 0.
Proof.
  set (st := mqttCallback _ _ _).
  assert (Hc : calm st) by apply calm_message, calm_setup.
  assert (Hr : reachable st) by apply reachable_message, reachable_setup.
  split.
  - destruct (value_and_output_bounds st 0) as [H _];
      [unfold numberOfLamps; lia|].
    destruct (H Hr) as [H1 _]. apply H1. reflexivity.
  - destruct (value_and_output_bounds st 1) as [_ H];
      [unfold numberOfLamps; lia|].
    apply (H Hc). reflexivity.
Defined.

(** ** Long press *)

Lemma long_press_off (st : state) :
  state_ok st → lampsInUse st = true →
  let st' := rotaryLongPressStart st in
  myLamps st' = (λ l, mkLamp (pin l) false (isOn l) (value l)) <$> myLamps st ∧
  lampsInUse st' = false ∧
  displayConnected st' = displayConnected st ∧
  (displayConnected st = true → selectedLamp st' = 0%nat).
Proof.
  intros Hok Hin st'. subst st'.
  open_lamps st Hok. cbn in Hin. subst inUse.
  unfold rotaryLongPressStart, rotaryLongPressStartWith; cbn.
  destruct oa, ob, oc; cbn; fade_all; destruct dC; cbn.
  all: repeat split; try reflexivity; discriminate.
Qed.

Lemma long_press_on (st : state) :
  state_ok st → lampsInUse st = false →
  let st' := rotaryLongPressStart st in
  myLamps st' =
    (λ l, mkLamp (pin l) (isOnDefault l) (isOnDefault l) (value l))
      <$> myLamps st ∧
  lampsInUse st' = true ∧ selectedLamp st' = 0%nat.
Proof.
  intros Hok Hin st'. subst st'.
  open_lamps st Hok. cbn in Hin. subst inUse.
  unfold rotaryLongPressStart, rotaryLongPressStartWith; cbn.
  destruct da, db, dc; cbn; fade_all.
  all: repeat split; reflexivity.
Qed.

(** With the display connected the two long presses are the round trip of
    the specification whenever [lampsInUse] is set: snapshot, all off,
    selection 0, nothing in use; then the lamps that were on are on again
    with their values, selection 0. *)
Lemma long_press_round_trip (st : state) :
  state_ok st → lampsInUse st = true → displayConnected st = true →
  let st1 := rotaryLongPressStart st in
  let st2 := rotaryLongPressStart st1 in
  isOnDefault <$> myLamps st1 = isOn <$> myLamps st ∧
  Forall (λ l, isOn l = false) (myLamps st1) ∧
  value <$> myLamps st1 = value <$> myLamps st ∧
  selectedLamp st1 = 0%nat ∧ lampsInUse st1 = false ∧
  isOn <$> myLamps st2 = isOn <$> myLamps st ∧
  value <$> myLamps st2 = value <$> myLamps st ∧
  selectedLamp st2 = 0%nat ∧ lampsInUse st2 = true.
Proof.
  intros Hok Hin Hd st1 st2.
  destruct (long_press_off st Hok Hin) as (Hl1 & Hu1 & _ & Hs1).
  fold st1 in Hl1, Hu1, Hs1.
  assert (Hok1 : state_ok st1) by by apply rotaryLongPressStartWith_ok.
  destruct (long_press_on st1 Hok1 Hu1) as (Hl2 & Hu2 & Hs2).
  fold st2 in Hl2, Hu2, Hs2.
  rewrite Hl2, Hl1, <- !list_fmap_compose.
  repeat split; auto.
  apply Forall_fmap, Forall_true. done.
Qed.

(** C3: the code at the failing input. No display answered at start-up, lamp
    2 was switched on by a command, lamp 0 is selected. The long press takes
    the snapshot and switches lamp 2 off, but the selection stays at lamp 2:
    [selectedLamp = 0] sits inside [if(displayConnected)]. *)
Lemma long_press_without_display :
  let st := mqttCallback "crafter-lamp/2/command" "90" (setup false true true) in
  let st' := rotaryLongPressStart st in
  reachable st ∧
  isOn <$> myLamps st = [false; false; true] ∧ selectedLamp st = 0%nat ∧
  isOn <$> myLamps st' = [false; false; false] ∧
  isOnDefault <$> myLamps st' = [false; false; true] ∧
  lampsInUse st' = false ∧
  selectedLamp st' = 2%nat.
Proof.
  split; [apply reachable_message, reachable_setup|].
  vm_compute. repeat split; reflexivity.
Qed.

(** ** Rejected and ignored messages *)






(** ** The afterglow event *)

Lemma loopKnob_rest now st :
  rotaryKnob st = rotaryOldPosition st → loopKnob now st = st.
Proof.
  intros Hk. unfold loopKnob. rewrite Hk, Z.eqb_refl. by destruct (isOn _).
Qed.

Lemma loop_idle e now t st :
  scheduled st = [t] → now < t → rotaryKnob st = rotaryOldPosition st →
  loop e now st = st.
Proof.
  intros Hs Ht Hk. unfold loop. rewrite loopKnob_rest by done.
  by apply (events_wait e now t).
Qed.

Lemma loop_fire e now t st :
  scheduled st = [t] → t ≤ now → rotaryKnob st = rotaryOldPosition st →
  loop e now st = clearDisplayAndPublishMQTT e (deleteEvent st).
Proof.
  intros Hs Ht Hk. unfold loop. rewrite loopKnob_rest by done.
  by apply (events_due e now t).
Qed.

Lemma loop_rest e now st :
  scheduled st = [] → rotaryKnob st = rotaryOldPosition st →
  loop e now st = st.
Proof.
  intros Hs Hk. unfold loop. rewrite loopKnob_rest by done.
  by apply events_nil.
Qed.

Lemma loopKnob_moved now st :
  state_ok st → moved st = true →
  let st' := loopKnob now st in
  (∃ c, trace st' = trace st ++ [AnalogWrite (pin (lampAt st (selectedLamp st))) c]) ∧
  scheduled st' = [now + displayAfterglow] ∧
  rotaryKnob st' = rotaryOldPosition st' ∧
  selectedLamp st' = selectedLamp st ∧
  mqttConnected st' = mqttConnected st.
Proof.
  intros Hok Hm st'. subst st'.
  unfold moved in Hm. apply andb_true_iff in Hm as [Hon Hne].
  unfold loopKnob. rewrite Hon, Hne. clear Hne.
  open_state st Hok; cbn in Hon; subst; cbn.
  all: split_ifs; cbn; (split; [eexists; reflexivity|]);
       repeat split; reflexivity.
Qed.

Lemma loop_moved e now st :
  state_ok st → moved st = true →
  loop e now st = loopKnob now st.
Proof.
  intros Hok Hm. unfold loop.
  destruct (loopKnob_moved now st Hok Hm) as (_ & Hs & _).
  apply (events_wait e now (now + displayAfterglow));
    [done | unfold displayAfterglow; lia].
Qed.

Lemma play_moved es m st :
  state_ok st → moved (turnKnob (delta m) st) = true →
  Forall (λ t, t < seen m + displayAfterglow) (idle m) →
  play es m st = loopKnob (seen m) (turnKnob (delta m) st).
Proof.
  intros Hok Hm Hidle. unfold play.
  rewrite loop_moved by (done || by apply turnKnob_ok).
  destruct (loopKnob_moved (seen m) (turnKnob (delta m) st))
    as (_ & Hs & Hk & _); [by apply turnKnob_ok | done |].
  induction Hidle as [|t ts Ht _ IH]; [done|].
  cbn. by rewrite (loop_idle _ t (seen m + displayAfterglow)).
Qed.

(** What a burst adds to the trace: the writes of the knob block. *)
Lemma burst_spec es ms : ∀ st,
  state_ok st → burst es st ms →
  let st1 := foldl (flip (play es)) st ms in
  (∃ ws, trace st1 = trace st ++ ws ∧ length ws = length ms ∧
         Forall (λ x, ∃ p c, x = AnalogWrite p c) ws) ∧
  selectedLamp st1 = selectedLamp st ∧
  mqttConnected st1 = mqttConnected st ∧
  state_ok st1 ∧
  (∀ m, last ms = Some m →
     scheduled st1 = [seen m + displayAfterglow] ∧
     rotaryKnob st1 = rotaryOldPosition st1).
Proof.
  induction ms as [|m ms IH]; intros st Hok Hb.
  { cbn. split; [exists []; by rewrite app_nil_r|].
    do 3 (split; [done|]). intros m [=]. }
  destruct Hb as (Hm & Hidle & Hb).
  change (foldl (flip (play es)) st (m :: ms))
    with (foldl (flip (play es)) (play es m st) ms).
  pose proof (play_moved es m st Hok Hm Hidle) as Hplay.
  destruct (loopKnob_moved (seen m) (turnKnob (delta m) st))
    as ((c & Hp) & Hs & Hk & Hsel & Hmq); [by apply turnKnob_ok | done |].
  rewrite <- Hplay in Hp, Hs, Hk, Hsel, Hmq.
  assert (Hok' : state_ok (play es m st))
    by (rewrite Hplay; by apply loopKnob_ok, turnKnob_ok).
  destruct (IH (play es m st) Hok' Hb)
    as ((ws & Hp1 & Hlen & Hws) & Hsel1 & Hmq1 & Hok1 & Hlast).
  cbn zeta. split.
  { eexists (_ :: ws). rewrite Hp1, Hp.
    change (trace (turnKnob (delta m) st)) with (trace st).
    rewrite <- app_assoc. split; [reflexivity|].
    split; [cbn; by rewrite Hlen|].
    constructor; [by eexists _, _|done]. }
  split; [by rewrite Hsel1, Hsel|].
  split; [by rewrite Hmq1, Hmq|]. split; [done|].
  destruct ms as [|m' ms']; [|by apply Hlast].
  intros ? [= <-]. done.
Qed.

Lemma writes_silent ws :
  Forall (λ x, ∃ p c, x = AnalogWrite p c) ws → Forall silent ws.
Proof.
  intros H. eapply Forall_impl; [exact H|]. by intros x (p & c & ->).
Qed.

(** C5, as stated, fails: the network was joined at start-up and the broker
    refused the connection. Lamp 0 is switched on and the knob is moved
    twice; the event is due at 17 and fires in the pass at 17, and nothing
    is published, where the claim has exactly one publish. *)
Lemma afterglow_silent_without_broker :
  let es := λ _ : Z, quiet in
  let st := rotaryClick (setup true true false) in
  let ms := [mkMovement 5 10 [11; 12]; mkMovement (-3) 13 [14; 16]] in
  let st1 := foldl (flip (play es)) st ms in
  let st2 := loop quiet 17 st1 in
  reachable st ∧ burst es st ms ∧
  wifiConnected st = true ∧ mqttConnected st = false ∧
  scheduled st1 = [17] ∧ scheduled st2 = [] ∧
  published st2 = published st1 ∧
  (∀ x, published st2 ≠ published st1 ++ [x]).
Proof.
  intros es st ms st1 st2.
  split; [apply reachable_click, reachable_setup|].
  split.
  { subst ms. cbn [burst].
    split; [vm_compute; reflexivity|].
    split; [repeat constructor; vm_compute; reflexivity|].
    split; [vm_compute; reflexivity|].
    split; [repeat constructor; vm_compute; reflexivity|exact I]. }
  vm_compute. repeat split; try reflexivity. intros x H. discriminate H.
Qed.

Lemma loopKnob_schedules now st :
  state_ok st → moved st = true →
  scheduled (loopKnob now st) = [now + displayAfterglow].
Proof.
  intros Hok Hm. by destruct (loopKnob_moved now st Hok Hm) as (_ & Hs & _).
Qed.

(** C5, amended: at most one settle event is pending in a reachable state,
    and a knob movement leaves exactly the one it schedules. A burst of
    movements made while the selected lamp is on, each read by [loop] as a
    change of the encoder position and followed only by passes of [loop]
    that come before its quiet period is over, adds to the trace one direct
    write per movement and nothing else: no publish, no reconnect. The
    first pass at or after the end of the last quiet period leaves no event
    pending. If the broker connection was not made at start-up that pass
    adds nothing to the trace. If it was, the pass enters
    [mqttPublishValue]: it reconnects if the link is down, handles a packet
    if one is waiting, and then publishes once, on the topic of the
    selected lamp, the value that lamp had when the pass began. Unless a
    packet was handled, later passes change nothing. *)
Theorem afterglow_coalesces (es : Z → pump) (st : state)
    (ms : list movement) (m : movement) (now : Z) :
  reachable st → burst es st (ms ++ [m]) → seen m + displayAfterglow ≤ now →
  let st1 := foldl (flip (play es)) st (ms ++ [m]) in
  let st2 := loop (es now) now st1 in
  let msg := Publish (brightnessTopicOf (selectedLamp st1))
               (String_of_Z (value (lampAt st1 (selectedLamp st1)))) in
  (length (scheduled st) ≤ 1)%nat ∧
  (∀ t, moved st = true → scheduled (loopKnob t st) = [t + displayAfterglow]) ∧
  (∃ ws, trace st1 = trace st ++ ws ∧ length ws = length (ms ++ [m]) ∧
         Forall (λ x, ∃ p c, x = AnalogWrite p c) ws) ∧
  published st1 = published st ∧
  scheduled st1 = [seen m + displayAfterglow] ∧
  scheduled st2 = [] ∧
  (mqttConnected st = false → trace st2 = trace st1) ∧
  (mqttConnected st = true →
     ∃ h, trace st2 = trace st1 ++ linkTrace (es now) ++ h ++ [msg] ∧
          Forall silent h ∧ (waiting (es now) = None → h = [])) ∧
  published st2 =
    published st1 ++
      (if mqttConnected st
       then [(brightnessTopicOf (selectedLamp st1),
              String_of_Z (value (lampAt st1 (selectedLamp st1))))]
       else []) ∧
  (mqttConnected st = false ∨ waiting (es now) = None →
     ∀ e later, loop e later st2 = st2).
Proof.
  intros Hr Hb Hnow st1 st2 msg. apply reachable_ok in Hr.
  destruct (burst_spec es (ms ++ [m]) st Hr Hb)
    as ((ws & Hws & Hlen & Hall) & Hsl & Hmq & Hok1 & Hlast).
  fold st1 in Hws, Hsl, Hmq, Hok1, Hlast.
  destruct (Hlast m (last_snoc _ _)) as (Hs & Hk).
  assert (Hst2 : st2 = clearDisplayAndPublishMQTT (es now) (deleteEvent st1))
    by (by apply (loop_fire _ now (seen m + displayAfterglow))).
  split; [apply Hr|].
  split; [intros t Hm; by apply loopKnob_schedules|].
  split; [by exists ws|].
  split.
  { unfold published. rewrite Hws, omap_app.
    rewrite (silent_published ws (writes_silent ws Hall)).
    by rewrite app_nil_r. }
  split; [done|].
  rewrite Hst2, <- Hmq. unfold clearDisplayAndPublishMQTT.
  change (mqttConnected (deleteEvent st1)) with (mqttConnected st1).
  change (lampAt (deleteEvent st1) (selectedLamp (deleteEvent st1)))
    with (lampAt st1 (selectedLamp st1)).
  destruct (mqttConnected st1).
  - destruct (mqttPublishValue_shape (es now) mqttBrightnessTopic
                (String_of_Z (value (lampAt st1 (selectedLamp st1))))
                (deleteEvent st1))
      as (Hsel2 & _ & _ & Ho2 & Hsc2 & h & Ht2 & Hh & Hnil).
    split; [exact Hsc2|]. split; [discriminate|].
    split; [intros _; by exists h|].
    split; [by rewrite mqttPublishValue_published|].
    intros [Hf|Hw]; [discriminate|]. intros e later.
    rewrite mqttPublishValue_calm by done.
    apply loop_rest; [reflexivity|exact Hk].
  - split; [reflexivity|]. split; [reflexivity|].
    split; [discriminate|]. split; [by rewrite app_nil_r|].
    intros _ e later. by apply loop_rest.
Qed.

Lemma afterglow_coalesces_witness :
  let es := λ t : Z, if t =? 17 then mkPump true [-2] None else quiet in
  let st := rotaryClick (setup true true true) in
  let st1 := foldl (flip (play es)) st
               [mkMovement 5 10 [11; 12]; mkMovement (-3) 13 [14; 16]] in
  published st1 = published st ∧
  published (loop (es 17) 17 st1) =
    published st ++ [("crafter-lamp/0/brightness", "130")].
Proof.
  intros es st st1.
  assert (Hr : reachable st) by apply reachable_click, reachable_setup.
  assert (Hb : burst es st
                 ([mkMovement 5 10 [11; 12]] ++ [mkMovement (-3) 13 [14; 16]])).
  { cbn [burst app].
    split; [vm_compute; reflexivity|].
    split; [repeat constructor; vm_compute; reflexivity|].
    split; [vm_compute; reflexivity|].
    split; [repeat constructor; vm_compute; reflexivity|exact I]. }
  assert (Hn : seen (mkMovement (-3) 13 [14; 16]) + displayAfterglow ≤ 17)
    by (vm_compute; discriminate).
  destruct (afterglow_coalesces es st [mkMovement 5 10 [11; 12]]
              (mkMovement (-3) 13 [14; 16]) 17 Hr Hb Hn)
    as (_ & _ & _ & H1 & _ & _ & _ & _ & H2 & _).
  split; [exact H1|].
  etransitivity; [exact H2|]. vm_compute. reflexivity.
Defined.

(** ** The fade engine *)

(** While every attempt fails, [mqttReconnect] is still in its loop. *)
Lemma mqttReconnect_failing (rcs : list Z) :
  mqttReconnect false (Some <$> rcs) = None.
Proof.
  induction rcs as [|rc rcs IH]; [reflexivity|].
  cbn [fmap list_fmap mqttReconnect]. by rewrite IH.
Qed.

Lemma waited_reconnected (rcs : list Z) :
  waited (reconnected rcs) = 5000 * Z.of_nat (length rcs).
Proof.
  unfold reconnected. induction rcs as [|rc rcs IH]; [reflexivity|].
  cbn [mbind list_bind app retry]. unfold waited in *.
  cbn [foldr app length]. rewrite IH. lia.
Qed.

(** C6, as stated, fails: the network was joined at start-up and the broker
    refused the connection; the fade ends with no publish at all. *)
Lemma fade_without_broker_is_silent :
  let st := setup true true false in
  let st' := switchLamp quiet true st in
  wifiConnected st = true ∧ mqttConnected st = false ∧
  isOn (lampAt st' 0) = true ∧
  output st' LAMP_A_PIN = 128 ∧ published st' = [] ∧
  published st' ≠ published st ++ [(brightnessTopicOf 0, "128")].
Proof. vm_compute. repeat split; try reflexivity. discriminate. Qed.

(** C6, amended: [switchLamp] on the selected lamp with value [v >= 0]
    writes the levels 0, 1, ..., v (switching on) or v, v-1, ..., 0
    (switching off) to the lamp's pin, each held for [fadeSpeed]
    milliseconds, and sets the lamp's flag. If the broker connection was not
    made at start-up that is all. If it was, [switchLamp] then enters
    [mqttPublishValue]: with the link down it first reconnects, retrying
    every 5 seconds until the broker accepts, and it returns only when that
    has happened; it handles a packet if one is waiting; and it publishes
    once, [v] or [0], on the brightness topic of the selected lamp. Unless
    a packet was handled the lamp ends with the flag asked for, its value,
    and its pin at [v] or 0. *)
Theorem fade_ramp_and_publish (e : pump) (st : state) (switchOn : bool) :
  (selectedLamp st < length (myLamps st))%nat →
  0 ≤ value (lampAt st (selectedLamp st)) →
  let i := selectedLamp st in
  let p := pin (lampAt st i) in
  let v := value (lampAt st i) in
  let ramp := rampTrace p (if switchOn then seqZ 0 (v + 1)
                           else reverse (seqZ 0 (v + 1))) in
  let payload := if switchOn then String_of_Z v else "0" in
  let st' := switchLamp e switchOn st in
  (mqttConnected st = false → trace st' = trace st ++ ramp) ∧
  (mqttConnected st = true →
     ∃ h, trace st' =
            trace st ++ ramp ++ linkTrace e ++ h
              ++ [Publish (brightnessTopicOf i) payload] ∧
          Forall silent h ∧ (waiting e = None → h = [])) ∧
  published st' =
    published st
      ++ (if mqttConnected st then [(brightnessTopicOf i, payload)] else []) ∧
  (linkDown e = false → linkTrace e = []) ∧
  (linkDown e = true →
     linkTrace e = Link <$> reconnected (failed e) ∧
     mqttReconnect false (attempts e) = Some (reconnected (failed e)) ∧
     mqttReconnect false (Some <$> failed e) = None ∧
     waited (reconnected (failed e)) = 5000 * Z.of_nat (length (failed e))) ∧
  (mqttConnected st = false ∨ waiting e = None →
     isOn (lampAt st' i) = switchOn ∧
     value (lampAt st' i) = v ∧
     output st' p = (if switchOn then v else 0)).
Proof.
  intros Hi Hv i p v ramp payload st'. subst st'.
  rewrite switchLamp_fadedLamp by done. cbn zeta.
  fold i v payload.
  assert (Hf : trace (fadedLamp switchOn st) = trace st ++ ramp) by reflexivity.
  assert (Hfin : isOn (lampAt (fadedLamp switchOn st) i) = switchOn ∧
                 value (lampAt (fadedLamp switchOn st) i) = v ∧
                 output (fadedLamp switchOn st) p = (if switchOn then v else 0)).
  { unfold fadedLamp, output, lampAt. cbn.
    rewrite lampAt_alter_isOn by done.
    rewrite lookup_insert_eq. by destruct switchOn. }
  assert (Hrs : Forall silent ramp) by apply rampTrace_silent.
  split; [by intros ->|].
  split.
  { intros ->.
    destruct (mqttPublishValue_shape e mqttBrightnessTopic payload
                (fadedLamp switchOn st)) as (_ & _ & _ & _ & _ & h & Ht & Hh).
    exists h. rewrite Ht, Hf, <- !app_assoc. by split. }
  split.
  { destruct (mqttConnected st).
    - rewrite mqttPublishValue_published. unfold published at 1.
      rewrite Hf, omap_app, (silent_published ramp Hrs).
      by rewrite app_nil_r.
    - unfold published. rewrite Hf, omap_app.
      rewrite (silent_published ramp Hrs). reflexivity. }
  split; [by unfold linkTrace; intros ->|].
  split.
  { intros Hd. unfold linkTrace, attempts. rewrite Hd.
    split; [reflexivity|]. split; [apply mqttReconnect_attempts|].
    split; [apply mqttReconnect_failing|apply waited_reconnected]. }
  intros [Hc|Hw].
  - by rewrite Hc.
  - destruct (mqttConnected st); [|done].
    rewrite mqttPublishValue_calm by done. exact Hfin.
Qed.

Lemma fade_ramp_and_publish_witness :
  let st := set_value 0 3 (setup true true true) in
  trace (switchLamp quiet true st) =
    [AnalogWrite 0 0; Delay 7; AnalogWrite 0 1; Delay 7;
     AnalogWrite 0 2; Delay 7; AnalogWrite 0 3; Delay 7;
     Publish "crafter-lamp/0/brightness" "3"] ∧
  published (switchLamp (mkPump true [-4; -4] None) false st) =
    [("crafter-lamp/0/brightness", "0")] ∧
  isOn (lampAt (switchLamp (mkPump true [-4; -4] None) false st) 0) = false.
Proof.
  intros st.
  assert (Hi : (selectedLamp st < length (myLamps st))%nat)
    by (vm_compute; lia).
  assert (Hv : 0 ≤ value (lampAt st (selectedLamp st)))
    by (vm_compute; discriminate).
  destruct (fade_ramp_and_publish quiet st true Hi Hv) as (_ & H1 & _).
  destruct (fade_ramp_and_publish (mkPump true [-4; -4] None) st false Hi Hv)
    as (_ & _ & H2 & _ & _ & H3).
  split; [|split].
  - destruct H1 as (h & Ht & _ & Hnil); [reflexivity|].
    rewrite (Hnil eq_refl) in Ht.
    etransitivity; [exact Ht|]. vm_compute. reflexivity.
  - etransitivity; [exact H2|]. vm_compute. reflexivity.
  - destruct H3 as (H & _); [right; reflexivity|exact H].
Defined.

(** ** Double click *)

(** C7: a double click moves the selection from [s] to [(s + 1) mod 3], sets
    the encoder position to the value of the newly selected lamp, changes no
    lamp, no output and publishes nothing; three double clicks return to the
    selection they started from. *)
Theorem double_click_round_robin (st : state) :
  (selectedLamp st < numberOfLamps)%nat →
  let st' := rotaryDoubleClick st in
  selectedLamp st' = ((selectedLamp st + 1) `mod` 3)%nat ∧
  rotaryKnob st' = value (lampAt st (selectedLamp st')) ∧
  myLamps st' = myLamps st ∧ pwm st' = pwm st ∧
  lampsInUse st' = lampsInUse st ∧ trace st' = trace st ∧
  selectedLamp (rotaryDoubleClick (rotaryDoubleClick st')) = selectedLamp st.
Proof.
  intros Hsel st'. subst st'. unfold numberOfLamps in Hsel.
  destruct st as [ls sel old inUse dC wC mC knob pw sch rx tr]; cbn in Hsel.
  destruct sel as [|[|[|?]]]; [ | | | lia]; repeat split; reflexivity.
Qed.

Lemma double_click_round_robin_witness :
  let st := mqttCallback "crafter-lamp/1/command" "200" (setup true true true) in
  selectedLamp (rotaryDoubleClick st) = 1%nat ∧
  rotaryKnob (rotaryDoubleClick st) = 200 ∧
  selectedLamp (rotaryDoubleClick (rotaryDoubleClick (rotaryDoubleClick st))) = 0%nat.
Proof.
  intros st.
  assert (Hsel : (selectedLamp st < numberOfLamps)%nat) by (vm_compute; lia).
  destruct (double_click_round_robin st Hsel) as (H1 & H2 & _ & _ & _ & _ & H3).
  split; [|split].
  - etransitivity; [exact H1|]. reflexivity.
  - etransitivity; [exact H2|]. vm_compute. reflexivity.
  - etransitivity; [exact H3|]. reflexivity.
Defined.

(** ** The aggregate flag *)

(** After a click the flag is the disjunction of the lamps' flags. *)
Lemma rotaryClick_lampsInUse (st : state) :
  state_ok st → lampsInUse (rotaryClick st) = lampsState (rotaryClick st).
Proof.
  intros Hok. open_state st Hok; unfold rotaryClick, rotaryClickWith; cbn.
  all: destruct oa, ob, oc, inUse; cbn; fade_all; reflexivity.
Qed.

(** And so it is after a command that is carried out. *)
Lemma command_lampsInUse (st : state) (i : nat) (v : Z) :
  state_ok st → (i < numberOfLamps)%nat → 0 ≤ v ≤ 255 →
  let st' := mqttDispatch (Z.of_nat i) mqttCommandTopic v st in
  lampsInUse st' = lampsState st'.
Proof.
  intros Hok Hi Hv st'. subst st'. rewrite mqttDispatch_command by done.
  open_lamps st Hok.
  destruct i as [|[|[|?]]]; [ | | | unfold numberOfLamps in Hi; lia ].
  all: destruct (v >? 0); cbn; try reflexivity.
  all: destruct oa, ob, oc; reflexivity.
Qed.

(** C8: the code at the failing input. Straight after start-up no lamp is on
    and no lamp has its default flag set; the long press restores nothing
    and still sets [lampsInUse = true]. *)
Lemma long_press_nothing_to_restore display wifi mqtt :
  let st := rotaryLongPressStart (setup display wifi mqtt) in
  lampsInUse st = true ∧ lampsState st = false ∧
  isOn <$> myLamps st = [false; false; false].
Proof. repeat split; reflexivity. Qed.

(** ** Knob rotation *)



(** ** Frame of a remote on-command *)

(** C10: an on-command ([1 <= v <= 255]) for lamp [i] leaves every other
    lamp as it was, keeps [isOnDefault] of lamp [i], the selection and the
    last reading, and sets the one encoder position to [v], whichever lamp is
    selected. *)
Theorem remote_on_frame (st : state) (topic payload : string) (i : nat) (v : Z) :
  length (myLamps st) = numberOfLamps →
  (i < numberOfLamps)%nat →
  topicLamp topic = Z.of_nat i →
  topicPart topic = mqttCommandTopic →
  toInt payload = v →
  1 ≤ v ≤ 255 →
  let st' := mqttCallback topic payload st in
  (∀ j, j ≠ i → lampAt st' j = lampAt st j) ∧
  isOnDefault (lampAt st' i) = isOnDefault (lampAt st i) ∧
  selectedLamp st' = selectedLamp st ∧
  rotaryOldPosition st' = rotaryOldPosition st ∧
  rotaryKnob st' = v.
Proof.
  intros Hlen Hi Hlamp Hpart Hpay Hv st'. subst st'.
  unfold mqttCallback.
  rewrite messageLamp_subtopic by (by rewrite Hpart).
  rewrite Hlamp, Hpart, Hpay.
  rewrite mqttDispatch_command by lia.
  replace (v >? 0) with true by lia.
  three_lamps st Hlen.
  destruct i as [|[|[|?]]]; [ | | | unfold numberOfLamps in Hi; lia ].
  all: repeat split; try reflexivity.
  all: intros [|[|[|?]]] Hj; try reflexivity; done.
Qed.

Lemma remote_on_frame_witness :
  let st := rotaryClick (setup true true true) in
  let st' := mqttCallback "crafter-lamp/2/command" "77" st in
  selectedLamp st' = 0%nat ∧ lampAt st' 0 = lampAt st 0 ∧ rotaryKnob st' = 77 ∧
  value (lampAt (loopKnob 10 st') 0) = 77.
Proof.
  intros st st'.
  destruct (remote_on_frame st "crafter-lamp/2/command" "77" 2 77)
    as (Hf & _ & Hs & _ & Hk);
    [ reflexivity | unfold numberOfLamps; lia | reflexivity | reflexivity
    | reflexivity | lia | ].
  split; [etransitivity; [exact Hs|]; vm_compute; reflexivity|].
  split; [apply Hf; discriminate|].
  split; [exact Hk|].
  vm_compute. reflexivity.
Defined.

(** * Further properties of the sketch *)

(** ** What the sketch publishes *)

Lemma silent_own mc es : Forall silent es → Forall (own_publish mc) es.
Proof.
  intros H. eapply Forall_impl; [exact H|]. intros x Hx. by destruct x.
Qed.

Lemma own_publish_value mc (i : nat) (v : Z) :
  mc = true → (i < numberOfLamps)%nat → 0 ≤ v ≤ 255 →
  own_publish mc (Publish (brightnessTopicOf i) (String_of_Z v)).
Proof. intros. split; [done|]. by exists i, v. Qed.

Lemma trace_own_same st st' :
  trace st' = trace st → mqttConnected st' = mqttConnected st →
  trace_own st → trace_own st'.
Proof. unfold trace_own. by intros -> ->. Qed.

Lemma trace_own_app st st' es :
  trace st' = trace st ++ es → mqttConnected st' = mqttConnected st →
  Forall (own_publish (mqttConnected st)) es →
  trace_own st → trace_own st'.
Proof.
  unfold trace_own. intros -> -> Hes Hst. by apply Forall_app.
Qed.

Lemma receive_own m st : trace_own st → trace_own (receive m st).
Proof.
  destruct (receive_shape m st) as (_ & Hc & _ & _ & _ & h & Ht & Hh).
  apply (trace_own_app _ _ h); [done | done | by apply silent_own].
Qed.

Lemma mqttPublishValue_own e (v : Z) st :
  mqttConnected st = true → (selectedLamp st < numberOfLamps)%nat →
  0 ≤ v ≤ 255 → trace_own st →
  trace_own (mqttPublishValue e mqttBrightnessTopic (String_of_Z v) st).
Proof.
  intros Hc Hs Hv.
  destruct (mqttPublishValue_shape e mqttBrightnessTopic (String_of_Z v) st)
    as (_ & Hc' & _ & _ & _ & h & Ht & Hh & _).
  apply (trace_own_app _ _ _ Ht Hc').
  rewrite !Forall_app. split.
  { unfold linkTrace. destruct (linkDown e); [|constructor].
    apply Forall_fmap, Forall_true. intros x. exact Hc. }
  split; [by apply silent_own|].
  apply Forall_cons_2; [|apply Forall_nil_2].
  by apply (own_publish_value _ (selectedLamp st) v).
Qed.

Lemma fadedLamp_own switchOn st :
  trace_own st → trace_own (fadedLamp switchOn st).
Proof.
  apply (trace_own_app st (fadedLamp switchOn st) _ eq_refl eq_refl).
  apply silent_own, rampTrace_silent.
Qed.

(** The fade of a lamp of the array whose value is a brightness. *)
Lemma switchLamp_own e switchOn st :
  length (myLamps st) = numberOfLamps →
  (selectedLamp st < numberOfLamps)%nat →
  0 ≤ value (lampAt st (selectedLamp st)) ≤ 255 →
  trace_own st → trace_own (switchLamp e switchOn st).
Proof.
  intros Hlen Hs Hv Hst.
  rewrite switchLamp_fadedLamp by (rewrite ?Hlen; lia). cbn zeta.
  destruct (mqttConnected st) eqn:Hc; [|by apply fadedLamp_own].
  destruct switchOn.
  - apply mqttPublishValue_own; [done | done | done | by apply fadedLamp_own].
  - apply (mqttPublishValue_own e 0); [done | done | lia | by apply fadedLamp_own].
Qed.

Lemma switchLamp_ok_own e switchOn st :
  state_ok st → trace_own st → trace_own (switchLamp e switchOn st).
Proof.
  intros Hok. apply switchLamp_own.
  - by apply state_ok_length.
  - apply Hok.
  - destruct (lampAt_ok st (selectedLamp st) Hok) as [Hv _]; [apply Hok|lia].
Qed.

Lemma long_off_round_own e i st :
  (i < numberOfLamps)%nat → state_ok st → trace_own st →
  trace_own (let st := set_isOnDefault i (isOn (lampAt st i)) st in
             if isOn (lampAt st i)
             then switchLamp e false (set_selectedLamp i st)
             else st).
Proof.
  intros Hi Hok Hst. cbn zeta.
  assert (Hd : state_ok (set_isOnDefault i (isOn (lampAt st i)) st)).
  { open_lamps st Hok.
    destruct i as [|[|[|?]]]; [ | | | unfold numberOfLamps in Hi; lia ];
      close_ok. }
  destruct (isOn (lampAt (set_isOnDefault i (isOn (lampAt st i)) st) i));
    [|exact Hst].
  apply switchLamp_ok_own; [by apply set_selectedLamp_ok|exact Hst].
Qed.

Lemma long_on_round_own e i st :
  (i < numberOfLamps)%nat → state_ok st → trace_own st →
  trace_own (let st := set_isOn i (isOnDefault (lampAt st i)) st in
             if isOn (lampAt st i)
             then switchLamp e (isOn (lampAt st i)) (set_selectedLamp i st)
             else st).
Proof.
  intros Hi Hok Hst. cbn zeta.
  open_lamps st Hok.
  destruct i as [|[|[|?]]]; [ | | | unfold numberOfLamps in Hi; lia ].
  - destruct da; cbn; [|exact Hst].
    apply switchLamp_own; [reflexivity | exact Hi | cbn; lia | exact Hst].
  - destruct db; cbn; [|exact Hst].
    apply switchLamp_own; [reflexivity | exact Hi | cbn; lia | exact Hst].
  - destruct dc; cbn; [|exact Hst].
    apply switchLamp_own; [reflexivity | exact Hi | cbn; lia | exact Hst].
Qed.

Lemma step_trace_own i st :
  state_ok st → trace_own st → trace_own (step i st).
Proof.
  intros Hok Htr. destruct i; cbn [step].
  - exact Htr.
  - unfold trace_own in *.
    open_state st Hok; cbn in Htr; unfold loopKnob; cbn; split_ifs;
      rewrite ?Forall_app; repeat split; try assumption;
      by repeat constructor.
  - unfold rotaryClickWith.
    destruct (isOn (lampAt st (selectedLamp st))).
    + apply (trace_own_same (switchLamp e false st)); [done | done |].
      by apply switchLamp_ok_own.
    + apply switchLamp_ok_own.
      * destruct (negb (lampsInUse st)); [by apply set_lampsInUse_ok|done].
      * by destruct (negb (lampsInUse st)).
  - apply (trace_own_same st); [| |exact Htr];
      destruct st as [ls sel old inUse dC wC mC knob pw sch rx tr];
      unfold rotaryDoubleClick; cbn; split_ifs; reflexivity.
  - unfold rotaryLongPressStartWith.
    change (seq 0 numberOfLamps) with [0; 1; 2]%nat. cbn [foldl].
    assert (H3 : (2 < numberOfLamps)%nat) by (unfold numberOfLamps; lia).
    assert (H2 : (1 < numberOfLamps)%nat) by (unfold numberOfLamps; lia).
    assert (H1 : (0 < numberOfLamps)%nat) by (unfold numberOfLamps; lia).
    destruct (lampsInUse st).
    + match goal with
      | |- trace_own (set_lampsInUse _ (if ?b then _ else ?s)) =>
          assert (Hs : trace_own s); [|by destruct b]
      end.
      apply (long_off_round_own _ 2 _ H3).
      { apply (long_off_round_ok _ 1 _ H2).
        by apply (long_off_round_ok _ 0 _ H1). }
      apply (long_off_round_own _ 1 _ H2).
      { by apply (long_off_round_ok _ 0 _ H1). }
      by apply (long_off_round_own _ 0 _ H1).
    + match goal with
      | |- trace_own (set_lampsInUse _ (set_selectedLamp _ ?s)) =>
          assert (Hs : trace_own s); [|exact Hs]
      end.
      apply (long_on_round_own _ 2 _ H3).
      { apply (long_on_round_ok _ 1 _ H2).
        by apply (long_on_round_ok _ 0 _ H1). }
      apply (long_on_round_own _ 1 _ H2).
      { by apply (long_on_round_ok _ 0 _ H1). }
      by apply (long_on_round_own _ 0 _ H1).
  - destruct (scheduled st) as [|t [|? ?]] eqn:Hs.
    + by rewrite events_nil.
    + destruct (decide (t ≤ now)).
      * rewrite (events_due e now t) by done.
        unfold clearDisplayAndPublishMQTT.
        change (mqttConnected (deleteEvent st)) with (mqttConnected st).
        destruct (mqttConnected st) eqn:Hc; [|exact Htr].
        apply mqttPublishValue_own; [exact Hc | apply Hok | | exact Htr].
        change (lampAt (deleteEvent st) (selectedLamp (deleteEvent st)))
          with (lampAt st (selectedLamp st)).
        destruct (lampAt_ok st (selectedLamp st) Hok) as [Hv _];
          [apply Hok|lia].
      * by rewrite (events_wait e now t) by (done || lia).
    + destruct Hok. rewrite Hs in *. cbn in *. lia.
  - by apply receive_own.
Qed.

Lemma reachable_trace_own st : reachable st → trace_own st.
Proof.
  induction 1 as [d w m|i st Hr IH]; [by apply Forall_nil_2|].
  apply step_trace_own; [by apply reachable_ok | done].
Qed.

Lemma published_in_trace st t p :
  (t, p) ∈ published st → Publish t p ∈ trace st.
Proof.
  unfold published. intros H. apply list_elem_of_omap in H as (e & He & Hm).
  destruct e; try discriminate Hm. by injection Hm as -> ->.
Qed.

Lemma toInt_String_of_Z v : 0 ≤ v ≤ 255 → toInt (String_of_Z v) = v.
Proof.
  intros Hv.
  assert (H : forallb (λ v, toInt (String_of_Z v) =? v) (seqZ 0 256) = true)
    by (vm_compute; reflexivity).
  rewrite forallb_forall in H.
  specialize (H v). rewrite <- list_elem_of_In, elem_of_seqZ in H.
  specialize (H ltac:(lia)). lia.
Qed.

Lemma brightnessTopicOf_parts (i : nat) :
  (i < numberOfLamps)%nat →
  topicLamp (brightnessTopicOf i) = Z.of_nat i ∧
  topicPart (brightnessTopicOf i) = mqttBrightnessTopic.
Proof.
  unfold numberOfLamps. intros Hi.
  destruct i as [|[|[|?]]]; [ | | | lia]; vm_compute; split; reflexivity.
Qed.

(** X1: whatever the sketch has published went out while the broker was
    connected, on the brightness topic of lamp 0, 1 or 2, and its payload is
    the decimal text of a number in [0,255], which [toInt] reads back. *)
Theorem published_are_own (st : state) (t p : string) :
  reachable st → (t, p) ∈ published st →
  mqttConnected st = true ∧
  (∃ i : nat, (i < numberOfLamps)%nat ∧ t = brightnessTopicOf i) ∧
  0 ≤ toInt p ≤ 255 ∧ String_of_Z (toInt p) = p.
Proof.
  intros Hr Hin. apply reachable_trace_own in Hr.
  apply published_in_trace in Hin.
  unfold trace_own in Hr. rewrite Forall_forall in Hr.
  destruct (Hr _ Hin) as (Hc & i & v & Hi & Hv & -> & ->).
  rewrite toInt_String_of_Z by done.
  split; [done|]. split; [by exists i|]. split; [lia|done].
Qed.

Lemma published_are_own_witness :
  let st := rotaryClick (setup true true true) in
  mqttConnected st = true ∧ toInt "128" = 128.
Proof.
  intros st.
  assert (Hr : reachable st) by apply reachable_click, reachable_setup.
  assert (Hin : ("crafter-lamp/0/brightness", "128") ∈ published st)
    by (vm_compute; apply list_elem_of_here).
  destruct (published_are_own st _ _ Hr Hin) as (H1 & _ & _ & _).
  split; [exact H1|reflexivity].
Defined.

(** X2: a sketch whose broker connection failed at start-up never publishes,
    so it never enters the reconnect loop of [mqttPublishValue]. *)
Theorem no_broker_no_publish (st : state) :
  reachable st → mqttConnected st = false → published st = [].
Proof.
  intros Hr Hc. apply reachable_trace_own in Hr. unfold trace_own in Hr.
  rewrite Hc in Hr. unfold published.
  induction (trace st) as [|e es IH]; [done|].
  apply Forall_cons in Hr as [He Hes]. cbn.
  destruct e; cbn; try by apply IH.
  by destruct He.
Qed.

Lemma no_broker_no_publish_witness :
  published (rotaryLongPressStart
               (rotaryLongPressStart (rotaryClick (setup true true false)))) = [].
Proof.
  apply no_broker_no_publish.
  - apply reachable_long, reachable_long, reachable_click, reachable_setup.
  - reflexivity.
Defined.

(** X3: a message the sketch has published, when the broker sends it back,
    is handled by [mqttCallback] without any change, in whatever state it
    arrives. *)
Theorem own_echo_ignored (st st' : state) (t p : string) :
  reachable st → (t, p) ∈ published st → mqttCallback t p st' = st'.
Proof.
  intros Hr Hin. apply reachable_trace_own in Hr.
  apply published_in_trace in Hin.
  unfold trace_own in Hr. rewrite Forall_forall in Hr.
  destruct (Hr _ Hin) as (_ & i & v & Hi & _ & -> & _).
  destruct (brightnessTopicOf_parts i Hi) as [Hl Hp].
  unfold mqttCallback.
  rewrite messageLamp_subtopic by (by rewrite Hp).
  rewrite Hl, Hp. unfold mqttDispatch, numberOfLamps in *.
  replace ((Z.of_nat i <? 0) || (Z.of_nat i >? Z.of_nat 3 - 1)) with false by lia.
  reflexivity.
Qed.

Lemma own_echo_ignored_witness :
  let st := rotaryClick (setup true true true) in
  mqttCallback "crafter-lamp/0/brightness" "128" st = st.
Proof.
  intros st.
  apply (own_echo_ignored st).
  - apply reachable_click, reachable_setup.
  - vm_compute. apply list_elem_of_here.
Defined.

(** X4: handling an inbound message never publishes, whatever the message
    and the state; neither do turning the knob, the knob block of [loop]
    and a double click. *)
Theorem inbound_never_publishes (st : state) :
  (∀ topic payload, published (mqttCallback topic payload st) = published st) ∧
  (∀ d, published (turnKnob d st) = published st) ∧
  (∀ now, published (loopKnob now st) = published st) ∧
  published (rotaryDoubleClick st) = published st.
Proof.
  unfold published. repeat split; intros.
  - unfold mqttCallback.
    generalize (messageLamp topic payload st) (topicPart topic) (toInt payload).
    intros lamp part v. unfold mqttDispatch. destruct st; cbn.
    split_ifs; rewrite ?omap_app; cbn; rewrite ?app_nil_r; reflexivity.
  - unfold loopKnob. destruct st; cbn. split_ifs; rewrite ?omap_app; cbn;
      rewrite ?app_nil_r; reflexivity.
  - unfold rotaryDoubleClick. destruct st; cbn. split_ifs; reflexivity.
Qed.

(** ** What every reachable state keeps *)

(** X5: in every reachable state a lamp that is on has its pin driven at
    exactly its stored value. *)
Theorem lit_lamp_output (st : state) (i : nat) :
  reachable st → (i < numberOfLamps)%nat → isOn (lampAt st i) = true →
  output st (pin (lampAt st i)) = value (lampAt st i).
Proof.
  intros Hr Hi Hon. apply reachable_ok in Hr.
  destruct (lampAt_ok st i Hr Hi) as (_ & H). by apply H.
Qed.

Lemma lit_lamp_output_witness :
  let st := loopKnob 5 (turnKnob 30 (rotaryClick (setup true true true))) in
  output st LAMP_A_PIN = 158.
Proof.
  intros st.
  assert (Hr : reachable st)
    by apply reachable_poll, reachable_turn, reachable_click, reachable_setup.
  etransitivity;
    [apply (lit_lamp_output st 0 Hr);
       [unfold numberOfLamps; lia | vm_compute; reflexivity]|].
  vm_compute. reflexivity.
Defined.

(** X6: in every state reached without a packet being handled inside a
    publish, if any lamp is on then [lampsInUse] is true; there the flag can
    be stale only in the other direction. *)
Theorem lit_lamp_in_use (st : state) :
  calm st → lampsState st = true → lampsInUse st = true.
Proof.
  intros Hc Hon. apply calm_state_calm in Hc.
  open_lamps st Hc. cbn in Hon.
  destruct oa, ob, oc; try discriminate Hon; cbn; intuition.
Qed.

Lemma lit_lamp_in_use_witness :
  lampsInUse
    (rotaryDoubleClick
       (mqttCallback "crafter-lamp/2/command" "9" (setup true true true)))
  = true.
Proof.
  apply lit_lamp_in_use.
  - apply calm_double, calm_message, calm_setup.
  - vm_compute. reflexivity.
Defined.

(** X7: in every reachable state the selection is a lamp index, the last
    encoder reading is in [2,255], the three pins are the ones [setup] gave
    the lamps, and every stored value is in [1,255], on or off. *)
Theorem selection_pins_and_values (st : state) :
  reachable st →
  (selectedLamp st < numberOfLamps)%nat ∧
  2 ≤ rotaryOldPosition st ≤ 255 ∧
  pin <$> myLamps st = [LAMP_A_PIN; LAMP_B_PIN; LAMP_C_PIN] ∧
  Forall (λ l, 1 ≤ value l ≤ 255) (myLamps st).
Proof.
  intros Hr. apply reachable_ok in Hr. destruct Hr as [Hp Hs Ho Hl _].
  repeat split; try done; try apply Ho.
  eapply Forall_impl; [exact Hl|]. by intros l (H & _).
Qed.

Lemma selection_pins_and_values_witness :
  let st := rotaryDoubleClick (rotaryDoubleClick (rotaryDoubleClick
              (rotaryLongPressStart (setup false false false)))) in
  (selectedLamp st < numberOfLamps)%nat.
Proof.
  intros st.
  assert (Hr : reachable st)
    by apply reachable_double, reachable_double, reachable_double,
         reachable_long, reachable_setup.
  destruct (selection_pins_and_values st Hr) as [H _]. exact H.
Defined.

(** ** Single click *)

(** X8: after a click, and after a command that is carried out,
    [lampsInUse] is the disjunction of the lamps' flags. *)
Theorem click_and_command_recompute (st : state) :
  reachable st →
  lampsInUse (rotaryClick st) = lampsState (rotaryClick st) ∧
  (∀ (i : nat) (v : Z), (i < numberOfLamps)%nat → 0 ≤ v ≤ 255 →
     let st' := mqttDispatch (Z.of_nat i) mqttCommandTopic v st in
     lampsInUse st' = lampsState st').
Proof.
  intros Hr. apply reachable_ok in Hr. split.
  - by apply rotaryClick_lampsInUse.
  - intros i v Hi Hv. by apply command_lampsInUse.
Qed.

Lemma click_and_command_recompute_witness :
  let st := rotaryLongPressStart (setup true true true) in
  lampsInUse st = true ∧ lampsState st = false ∧
  lampsInUse (rotaryClick st) = lampsState (rotaryClick st).
Proof.
  intros st. split; [vm_compute; reflexivity|].
  split; [vm_compute; reflexivity|].
  assert (Hr : reachable st) by apply reachable_long, reachable_setup.
  destruct (click_and_command_recompute st Hr) as [H _]. exact H.
Defined.

(** X9: two clicks in a row give back every lamp (flag, default flag and
    value), the selection, the encoder and the pending event; [lampsInUse]
    ends as the disjunction of the lamps' flags. They give back the output
    of every pin as well if the selected lamp is on or its pin is at 0 to
    start with, which is so in every state reached without a packet being
    handled inside a publish. *)
Theorem double_toggle (st : state) :
  reachable st →
  let st' := rotaryClick (rotaryClick st) in
  let l := lampAt st (selectedLamp st) in
  myLamps st' = myLamps st ∧ selectedLamp st' = selectedLamp st ∧
  rotaryKnob st' = rotaryKnob st ∧
  rotaryOldPosition st' = rotaryOldPosition st ∧
  scheduled st' = scheduled st ∧
  lampsInUse st' = lampsState st ∧
  (isOn l = true ∨ output st (pin l) = 0 → ∀ p, output st' p = output st p) ∧
  (calm st → ∀ p, output st' p = output st p).
Proof.
  intros Hr st' l.
  assert (Hcalm : calm st → isOn l = true ∨ output st (pin l) = 0).
  { intros Hc. apply calm_state_calm in Hc.
    destruct (lampAt_calm st (selectedLamp st) Hc) as (_ & Hoff & _);
      [apply Hc|].
    fold l in Hoff. destruct (isOn l); [by left|right; by apply Hoff]. }
  assert (Hmain :
    myLamps st' = myLamps st ∧ selectedLamp st' = selectedLamp st ∧
    rotaryKnob st' = rotaryKnob st ∧
    rotaryOldPosition st' = rotaryOldPosition st ∧
    scheduled st' = scheduled st ∧
    lampsInUse st' = lampsState st ∧
    (isOn l = true ∨ output st (pin l) = 0 → ∀ p, output st' p = output st p));
    [|by intuition].
  clear Hcalm. subst st' l. apply reachable_ok in Hr.
  open_state st Hr.
  all: destruct oa, ob, oc, inUse.
  all: match goal with
       | |- context [rotaryClick (rotaryClick ?s)] =>
           remember (rotaryClick s) as s1 eqn:E;
           unfold rotaryClick, rotaryClickWith in E; cbn in E;
           rewrite switchLamp_faded in E by (first [done | cbn; lia]);
           unfold faded in E; cbn in E; subst s1
       end.
  all: unfold rotaryClick, rotaryClickWith; cbn; fade_all.
  all: repeat split; try reflexivity.
  all: intros Hp p; unfold output in *; cbn in Hp |- *.
  all: match goal with
       | |- context [<[?q := _]> (<[?q := _]> _) !! ?x] =>
           destruct (decide (x = q)) as [->|Hne];
           [ rewrite lookup_insert_eq; cbn; intuition (try congruence)
           | rewrite !lookup_insert_ne by done; reflexivity ]
       end.
Qed.

Lemma double_toggle_witness :
  let st := mqttCallback "crafter-lamp/0/command" "77" (setup true true true) in
  myLamps (rotaryClick (rotaryClick st)) = myLamps st ∧
  output (rotaryClick (rotaryClick st)) LAMP_A_PIN = 77.
Proof.
  intros st.
  assert (Hr : reachable st) by apply reachable_message, reachable_setup.
  destruct (double_toggle st Hr) as (H1 & _ & _ & _ & _ & _ & H2 & _).
  split; [exact H1|].
  etransitivity; [apply H2; left; reflexivity|reflexivity].
Defined.

(** ** The knob *)

(** X10: the knob block of [loop] acts on an encoder position once: a second
    pass with the knob at rest changes nothing, not even the pending settle
    event. *)
Theorem knob_poll_once (st : state) (now later : Z) :
  reachable st →
  loopKnob later (loopKnob now st) = loopKnob now st.
Proof.
  intros Hr. apply reachable_ok in Hr.
  open_state st Hr; destruct oa, ob, oc.
  all: remember (loopKnob now _) as s1 eqn:E;
       unfold loopKnob in E; cbn in E;
       destruct (knob =? old) eqn:Hk; cbn in E;
       [ subst s1; unfold loopKnob; cbn; rewrite ?Hk; reflexivity |].
  all: destruct (knob <? 2) eqn:H2; cbn in E;
       [| destruct (knob >? 255) eqn:H255; cbn in E ].
  all: subst s1; unfold loopKnob; cbn; rewrite ?Z.eqb_refl; reflexivity.
Qed.

Lemma knob_poll_once_witness :
  let st := turnKnob (-200) (rotaryClick (setup true true true)) in
  loopKnob 9 (loopKnob 3 st) = loopKnob 3 st.
Proof.
  intros st. apply knob_poll_once.
  apply reachable_turn, reachable_click, reachable_setup.
Defined.



(** X12: a double click followed by a pass of the knob block changes no
    lamp, provided the newly selected lamp is off or has a value of at least
    2: the encoder was re-seeded from that value. *)
Theorem select_then_poll_keeps_lamps (st : state) (now : Z) :
  reachable st →
  let st1 := rotaryDoubleClick st in
  let l := lampAt st1 (selectedLamp st1) in
  isOn l = false ∨ 2 ≤ value l →
  myLamps (loopKnob now st1) = myLamps st.
Proof.
  intros Hr st1 l Hl. subst st1 l. apply reachable_ok in Hr.
  open_state st Hr; cbn in Hl.
  all: remember (rotaryDoubleClick _) as s1 eqn:E;
       unfold rotaryDoubleClick in E; cbn in E; subst s1.
  all: unfold loopKnob; cbn.
  all: split_ifs; try reflexivity; repeat f_equal; lia.
Qed.

Lemma select_then_poll_keeps_lamps_witness :
  let st := mqttCallback "crafter-lamp/1/command" "40"
              (rotaryClick (setup true true true)) in
  myLamps (loopKnob 2 (rotaryDoubleClick st)) = myLamps st.
Proof.
  intros st. apply (select_then_poll_keeps_lamps st 2).
  - apply reachable_message, reachable_click, reachable_setup.
  - right. vm_compute. discriminate.
Defined.

(** X13: the exception to X12. A lamp switched on by the command [1] keeps
    the value 1 only until it is selected and polled: the knob block then
    raises it to 2. *)
Theorem value_one_is_raised (st : state) (now : Z) :
  reachable st →
  let i := selectedLamp st in
  isOn (lampAt st i) = true → value (lampAt st i) = 1 →
  rotaryKnob st = 1 →
  value (lampAt (loopKnob now st) i) = 2.
Proof.
  intros Hr i Hon Hv Hk. subst i. apply reachable_ok in Hr.
  open_state st Hr; cbn in Hon, Hv, Hk; subst.
  all: unfold loopKnob; cbn -[Z.eqb].
  all: replace (1 =? old) with false by lia; reflexivity.
Qed.

Lemma value_one_is_raised_witness :
  let st := mqttCallback "crafter-lamp/0/command" "1" (setup true true true) in
  value (lampAt st 0) = 1 ∧ value (lampAt (loopKnob 4 st) 0) = 2.
Proof.
  intros st. split; [vm_compute; reflexivity|].
  apply (value_one_is_raised st 4).
  - apply reachable_message, reachable_setup.
  - vm_compute. reflexivity.
  - vm_compute. reflexivity.
  - vm_compute. reflexivity.
Defined.

(** ** Text helpers and the display *)

Lemma string_app_cons a s1 s2 : String a s1 +:+ s2 = String a (s1 +:+ s2).
Proof. reflexivity. Qed.

Lemma string_length_app s1 s2 :
  String.length (s1 +:+ s2) = (String.length s1 + String.length s2)%nat.
Proof.
  induction s1 as [|a s1 IH]; [reflexivity|].
  rewrite string_app_cons. cbn [String.length]. by rewrite IH.
Qed.

Lemma string_app_nil_r s : s +:+ "" = s.
Proof.
  induction s as [|a s IH]; [reflexivity|].
  by rewrite string_app_cons, IH.
Qed.

Lemma string_app_assoc s1 s2 s3 : (s1 +:+ s2) +:+ s3 = s1 +:+ (s2 +:+ s3).
Proof.
  induction s1 as [|a s1 IH]; [reflexivity|].
  by rewrite !string_app_cons, IH.
Qed.

Lemma padLoop_spaces n : ∀ s, padLoop n s = s +:+ spaces n.
Proof.
  induction n as [|n IH]; intros s; cbn [padLoop].
  - by rewrite string_app_nil_r.
  - rewrite IH, string_app_assoc. reflexivity.
Qed.

Lemma spaces_length n : String.length (spaces n) = n.
Proof. induction n; cbn; auto. Qed.

Lemma getStringWithSpaces_eq (number width : Z) :
  getStringWithSpaces number width
    = spaces (Z.to_nat (uint8 width
                        - Z.of_nat (String.length (String_of_Z (uint8 number)))))
      +:+ String_of_Z (uint8 number).
Proof.
  unfold getStringWithSpaces.
  set (digits := String_of_Z (uint8 number)).
  set (len := Z.of_nat (String.length digits)).
  destruct (len <? uint8 width) eqn:Hlt.
  - by rewrite padLoop_spaces.
  - replace (Z.to_nat (uint8 width - len)) with 0%nat by lia. reflexivity.
Qed.

(** X14: [getStringWithSpaces] puts spaces in front of the decimal digits of
    the number (its low eight bits) until the text is [width] characters
    long; digits that are already wider are never cut. *)
Theorem getStringWithSpaces_pads (number width : Z) :
  let digits := String_of_Z (uint8 number) in
  let len := Z.of_nat (String.length digits) in
  getStringWithSpaces number width
    = spaces (Z.to_nat (uint8 width - len)) +:+ digits ∧
  Z.of_nat (String.length (getStringWithSpaces number width))
    = Z.max (uint8 width) len.
Proof.
  intros digits len. rewrite getStringWithSpaces_eq. fold digits. fold len.
  split; [reflexivity|].
  rewrite string_length_app, spaces_length. fold len. lia.
Qed.

Lemma digits_length (n : Z) :
  0 ≤ n ≤ 255 → (1 ≤ String.length (String_of_Z n) ≤ 3)%nat.
Proof.
  intros Hn.
  assert (H : forallb (λ n, let k := String.length (String_of_Z n) in
                            (1 <=? k)%nat && (k <=? 3)%nat)
                      (seqZ 0 256) = true)
    by (vm_compute; reflexivity).
  rewrite forallb_forall in H.
  specialize (H n). rewrite <- list_elem_of_In, elem_of_seqZ in H.
  specialize (H ltac:(lia)). cbn zeta in H. lia.
Qed.

Lemma percent_width n :
  1 ≤ n ≤ 100 → String.length (getStringWithSpaces n 3) = 3%nat.
Proof.
  intros Hn. rewrite getStringWithSpaces_eq.
  assert (Hu : uint8 n = n) by (unfold uint8; rewrite Z.mod_small; lia).
  rewrite Hu, string_length_app, spaces_length.
  pose proof (digits_length n ltac:(lia)).
  change (uint8 3) with 3. lia.
Qed.

Lemma arduinoMap_percent : percent_map arduinoMap.
Proof.
  intros v Hv.
  assert (H : forallb (λ v, let p := arduinoMap v 1 255 1 100 in
                            (1 <=? p) && (p <=? 100)) (seqZ 1 255) = true)
    by (vm_compute; reflexivity).
  rewrite forallb_forall in H.
  specialize (H v). rewrite <- list_elem_of_In, elem_of_seqZ in H.
  specialize (H ltac:(lia)). cbn zeta in H. lia.
Qed.

Lemma esp8266Map_percent : percent_map esp8266Map.
Proof.
  intros v Hv.
  assert (H : forallb (λ v, let p := esp8266Map v 1 255 1 100 in
                            (1 <=? p) && (p <=? 100)) (seqZ 1 255) = true)
    by (vm_compute; reflexivity).
  rewrite forallb_forall in H.
  specialize (H v). rewrite <- list_elem_of_In, elem_of_seqZ in H.
  specialize (H ltac:(lia)). cbn zeta in H. lia.
Qed.

Lemma printed_cons_print t ds : printed (Print t :: ds) = t +:+ printed ds.
Proof. reflexivity. Qed.

Lemma printed_app ds1 ds2 : printed (ds1 ++ ds2) = printed ds1 +:+ printed ds2.
Proof.
  induction ds1 as [|d ds1 IH]; [reflexivity|].
  destruct d; cbn [app]; unfold printed in *; cbn [foldr]; rewrite ?IH;
    try reflexivity.
  by rewrite string_app_assoc.
Qed.

Section DisplayFacts.

Variable map : Z → Z → Z → Z → Z → Z.
Hypothesis map_percent : percent_map map.

Lemma lampCell_text st i :
  1 ≤ value (lampAt st i) ≤ 255 →
  String.length (printed (lampCell map st i)) = 7%nat ∧
  highlights (lampCell map st i) = (if (i =? selectedLamp st)%nat then 1 else 0)%nat.
Proof.
  intros Hv. unfold lampCell, highlights.
  rewrite printed_app, string_length_app, List.filter_app, length_app.
  split.
  - destruct ((i =? selectedLamp st)%nat), (isOn (lampAt st i)).
    all: rewrite !printed_cons_print, !string_length_app;
         rewrite ?percent_width by (by apply map_percent); reflexivity.
  - destruct ((i =? selectedLamp st)%nat), (isOn (lampAt st i)); reflexivity.
Qed.

(** X15: in every reachable state the status line that [displayLampState]
    prints is 21 characters long, seven for each lamp, whatever the lamps'
    flags and values, and exactly one lamp, the selected one, is printed
    inverted. *)
Theorem displayLampState_line (st : state) :
  reachable st →
  String.length (printed (displayLampState map st)) = 21%nat ∧
  highlights (displayLampState map st) = 1%nat.
Proof.
  intros Hr. apply reachable_ok in Hr.
  assert (Hc : ∀ i, (i < numberOfLamps)%nat →
            String.length (printed (lampCell map st i)) = 7%nat ∧
            highlights (lampCell map st i)
              = (if (i =? selectedLamp st)%nat then 1 else 0)%nat).
  { intros i Hi. apply lampCell_text. by apply (lampAt_ok st i Hr Hi). }
  destruct (Hc 0%nat) as [L0 H0]; [unfold numberOfLamps; lia|].
  destruct (Hc 1%nat) as [L1 H1]; [unfold numberOfLamps; lia|].
  destruct (Hc 2%nat) as [L2 H2]; [unfold numberOfLamps; lia|].
  unfold displayLampState, highlights in *.
  change (seq 0 numberOfLamps ≫= lampCell map st)
    with (lampCell map st 0 ++ lampCell map st 1 ++ lampCell map st 2 ++ []).
  rewrite !printed_app, !string_length_app, !List.filter_app, !length_app.
  rewrite L0, L1, L2, H0, H1, H2.
  pose proof (ok_selected st Hr) as Hs. unfold numberOfLamps in Hs.
  destruct (selectedLamp st) as [|[|[|?]]]; [ | | | lia]; split; reflexivity.
Qed.

(** X16: in every reachable state the rectangles [displayRotaryValue]
    draws nest: the bar lies in the black box, the box in the white frame,
    the frame in the cleared area, and that on the 128x64 screen; the bar
    is at least one pixel wide. *)
Theorem displayRotaryValue_nests (st : state) :
  reachable st →
  ∃ cleared frame box bar,
    rects (displayRotaryValue map st) = [cleared; frame; box; bar] ∧
    inside bar box ∧ inside box frame ∧ inside frame cleared ∧
    inside cleared (0, 0, SCREEN_WIDTH, 64) ∧
    1 ≤ bar.1.2.
Proof.
  intros Hr. apply reachable_ok in Hr.
  pose proof (ok_selected st Hr) as Hs.
  destruct (lampAt_ok st _ Hr Hs) as (Hv & _).
  pose proof (map_percent _ Hv) as Hp.
  eexists _, _, _, _. split; [reflexivity|].
  unfold inside, SCREEN_WIDTH. cbn. lia.
Qed.

End DisplayFacts.

Lemma displayLampState_line_witness :
  let st := mqttCallback "crafter-lamp/1/command" "255" (setup true true true) in
  printed (displayLampState arduinoMap st) = " A: aus B:100% C: aus" ∧
  String.length (printed (displayLampState esp8266Map st)) = 21%nat.
Proof.
  intros st. split; [vm_compute; reflexivity|].
  assert (Hr : reachable st) by apply reachable_message, reachable_setup.
  destruct (displayLampState_line esp8266Map esp8266Map_percent st Hr) as [H _].
  exact H.
Defined.

Lemma displayRotaryValue_nests_witness :
  let st := loopKnob 3 (turnKnob 500 (rotaryClick (setup true true true))) in
  rects (displayRotaryValue arduinoMap st)
    = [(0, 8, 128, 48); (10, 23, 108, 18); (14, 27, 100, 10); (14, 27, 100, 10)] ∧
  ∃ cleared frame box bar,
    rects (displayRotaryValue arduinoMap st) = [cleared; frame; box; bar] ∧
    inside bar box.
Proof.
  intros st. split; [vm_compute; reflexivity|].
  assert (Hr : reachable st)
    by apply reachable_poll, reachable_turn, reachable_click, reachable_setup.
  destruct (displayRotaryValue_nests arduinoMap arduinoMap_percent st Hr)
    as (c & f & b & r & H1 & H2 & _).
  by exists c, f, b, r.
Defined.

(** ** Reconnecting *)

(** X18: [mqttReconnect] does nothing when the client is connected. After
    [k] failed attempts and a successful one it returns, having waited
    [5000 * k] milliseconds, and its last two acts are the successful connect
    and the subscription to [crafter-lamp/#]. While every attempt fails it
    does not return. *)
Theorem mqttReconnect_until_connected (rcs : list Z) (rest : list (option Z)) :
  (∀ attempts, mqttReconnect true attempts = Some []) ∧
  (∃ evs,
     mqttReconnect false ((Some <$> rcs) ++ None :: rest)
       = Some (evs ++ [Connect; Subscribe "crafter-lamp/#"]) ∧
     waited evs = 5000 * Z.of_nat (length rcs) ∧
     Forall (λ e, ∀ t, e ≠ Subscribe t) evs ∧
     length (List.filter (λ e, match e with Connect => true | _ => false end) evs)
       = length rcs) ∧
  mqttReconnect false (Some <$> rcs) = None.
Proof.
  split; [by intros []|]. split.
  - induction rcs as [|rc rcs (evs & Heq & Hw & Hs & Hc)].
    + exists []. repeat split; try reflexivity. constructor.
    + eexists (_ :: _ :: _ :: _ :: _ :: evs). cbn [fmap list_fmap app mqttReconnect].
      rewrite Heq. cbn [option_map app]. split; [reflexivity|].
      split; [unfold waited in *; cbn [foldr length]; lia|].
      split; [repeat (constructor; [intros ? ?; discriminate|]); exact Hs|].
      cbn. by rewrite Hc.
  - apply mqttReconnect_failing.
Qed.

(** ** Frames and compositions *)



Lemma loopKnob_moved_fields now st :
  state_ok st → moved st = true →
  let s1 := loopKnob now st in
  selectedLamp s1 = selectedLamp st ∧
  isOn (lampAt s1 (selectedLamp st)) = true ∧
  value (lampAt s1 (selectedLamp st)) = clamp (rotaryKnob st) ∧
  mqttConnected s1 = mqttConnected st ∧
  published s1 = published st ∧
  scheduled s1 = [now + displayAfterglow].
Proof.
  intros Hok Hm s1. subst s1.
  unfold moved in Hm. apply andb_true_iff in Hm as [Hon Hne].
  unfold loopKnob, published, clamp. rewrite Hon, Hne. clear Hne.
  open_state st Hok; cbn in Hon; subst; cbn.
  all: split_ifs; cbn; rewrite omap_app; cbn; rewrite ?app_nil_r;
       repeat split; try reflexivity; lia.
Qed.

Lemma click_off_fields e st :
  state_ok st → waiting e = None →
  isOn (lampAt st (selectedLamp st)) = true →
  let s2 := rotaryClickWith e st in
  selectedLamp s2 = selectedLamp st ∧
  isOn (lampAt s2 (selectedLamp st)) = false ∧
  value (lampAt s2 (selectedLamp st)) = value (lampAt st (selectedLamp st)) ∧
  mqttConnected s2 = mqttConnected st ∧
  scheduled s2 = scheduled st ∧
  published s2 =
    published st ++
      (if mqttConnected st
       then [(brightnessTopicOf (selectedLamp st), "0")] else []).
Proof.
  intros Hok Hw Hon s2. subst s2. unfold published.
  open_state st Hok; cbn in Hon; subst.
  all: unfold rotaryClickWith; cbn; fade_all.
  all: rewrite !omap_app, (silent_published _ (rampTrace_silent _ _));
       destruct mC; cbn;
       rewrite ?omap_app, ?linkTrace_published;
       rewrite ?app_nil_r; repeat split; reflexivity.
Qed.

(** X20: with the broker connection made at start-up, the settle event
    publishes the stored value of the selected lamp whether or not the lamp
    is still on. A knob movement, then a click that switches the lamp off
    and handles no packet, then the event coming due: the publishes are [0]
    for the switch-off and after it the brightness, with the lamp off
    unless a packet handled before that publish has switched it on. *)
Theorem settle_after_switch_off (e1 e2 : pump) (st : state) (now : Z) :
  reachable st → mqttConnected st = true → moved st = true →
  waiting e1 = None →
  let i := selectedLamp st in
  let st1 := rotaryClickWith e1 (loopKnob now st) in
  let st2 := events e2 (now + displayAfterglow) st1 in
  isOn (lampAt st1 i) = false ∧
  (waiting e2 = None → isOn (lampAt st2 i) = false) ∧
  published st2 =
    published st ++
      [ (brightnessTopicOf i, "0");
        (brightnessTopicOf i, String_of_Z (clamp (rotaryKnob st))) ].
Proof.
  intros Hr Hmq Hm Hw1 i st1 st2. apply reachable_ok in Hr.
  destruct (loopKnob_moved_fields now st Hr Hm)
    as (Hs1 & Ho1 & Hv1 & Hm1 & Hp1 & Hd1).
  assert (Hok1 : state_ok (loopKnob now st)) by by apply loopKnob_ok.
  rewrite <- Hs1 in Ho1, Hv1.
  destruct (click_off_fields e1 (loopKnob now st) Hok1 Hw1 Ho1)
    as (Hs2 & Ho2 & Hv2 & Hm2 & Hd2 & Hp2).
  fold st1 in Hs2, Ho2, Hv2, Hm2, Hd2, Hp2.
  rewrite Hs1 in Hs2, Ho2, Hv2, Hp2. fold i in Hs2, Ho2, Hv2, Hp2.
  rewrite Hm1, Hmq in Hp2, Hm2. rewrite Hd1 in Hd2.
  rewrite Hs1 in Hv1. fold i in Hv1. rewrite Hv1 in Hv2.
  split; [exact Ho2|].
  subst st2. rewrite (events_due _ _ (now + displayAfterglow)) by (done || lia).
  unfold clearDisplayAndPublishMQTT.
  change (mqttConnected (deleteEvent st1)) with (mqttConnected st1).
  change (lampAt (deleteEvent st1) (selectedLamp (deleteEvent st1)))
    with (lampAt st1 (selectedLamp st1)).
  rewrite Hm2, Hs2, Hv2. split.
  - intros Hw2. rewrite mqttPublishValue_calm by done. exact Ho2.
  - rewrite mqttPublishValue_published.
    change (published (deleteEvent st1)) with (published st1).
    change (selectedLamp (deleteEvent st1)) with (selectedLamp st1).
    rewrite Hp2, Hp1, Hs2, <- app_assoc. reflexivity.
Qed.

Lemma settle_after_switch_off_witness :
  let st := turnKnob 12 (rotaryClick (setup true true true)) in
  published (events (mkPump true [-2] None) 9
               (rotaryClickWith quiet (loopKnob 5 st))) =
    [ ("crafter-lamp/0/brightness", "128");
      ("crafter-lamp/0/brightness", "0");
      ("crafter-lamp/0/brightness", "140") ].
Proof.
  intros st.
  assert (Hr : reachable st)
    by apply reachable_turn, reachable_click, reachable_setup.
  assert (Hc : mqttConnected st = true) by (vm_compute; reflexivity).
  assert (Hm : moved st = true) by (vm_compute; reflexivity).
  destruct (settle_after_switch_off quiet (mkPump true [-2] None) st 5
              Hr Hc Hm eq_refl) as (_ & _ & H).
  etransitivity; [exact H|]. vm_compute. reflexivity.
Defined.

(** X21: there is one encoder for three lamps. An on-command for a lamp that
    is not selected moves the encoder, and the next pass of the knob block
    gives the selected lamp, if it is on, the commanded brightness (clamped
    to [2,255]). *)
Theorem command_reaches_selected_lamp (st : state) (i : nat) (v now : Z) :
  reachable st →
  (i < numberOfLamps)%nat → i ≠ selectedLamp st →
  isOn (lampAt st (selectedLamp st)) = true →
  1 ≤ v ≤ 255 → clamp v ≠ rotaryOldPosition st →
  let st' := loopKnob now (mqttDispatch (Z.of_nat i) mqttCommandTopic v st) in
  value (lampAt st' i) = v ∧
  value (lampAt st' (selectedLamp st)) = clamp v ∧
  output st' (pin (lampAt st (selectedLamp st))) = clamp v.
Proof.
  intros Hr Hi Hne Hon Hv Hold' st'. subst st'. apply reachable_ok in Hr.
  rewrite mqttDispatch_command by lia.
  replace (v >? 0) with true by lia. unfold clamp, output in *.
  open_state st Hr; cbn in Hon, Hne, Hold'; subst.
  all: destruct i as [|[|[|?]]]; try (unfold numberOfLamps in Hi; lia);
       try done.
  all: unfold loopKnob; cbn -[Z.eqb].
  all: replace (v =? old) with false by lia; cbn.
  all: destruct (v <? 2) eqn:H2; cbn;
       [| destruct (v >? 255) eqn:H255; cbn ].
  all: rewrite lookup_insert_eq; cbn; repeat split; lia.
Qed.

Lemma command_reaches_selected_lamp_witness :
  let st := rotaryClick (setup true true true) in
  let st' := loopKnob 3 (mqttCallback "crafter-lamp/2/command" "77" st) in
  value (lampAt st' 2) = 77 ∧ value (lampAt st' 0) = 77.
Proof.
  intros st st'.
  assert (Hr : reachable st) by apply reachable_click, reachable_setup.
  destruct (command_reaches_selected_lamp st 2 77 3 Hr) as (H1 & H2 & _);
    [ unfold numberOfLamps; lia | vm_compute; discriminate
    | vm_compute; reflexivity | lia | vm_compute; discriminate | ].
  split.
  - etransitivity; [|exact H1]. vm_compute. reflexivity.
  - etransitivity; [|etransitivity; [exact H2|]]; vm_compute; reflexivity.
Defined.

(** X22: with the display connected, a long press while [lampsInUse] is set
    takes the snapshot, switches every lamp off, selects lamp 0 and clears
    [lampsInUse]; a second long press switches exactly the lamps of the
    snapshot on again, at their values, and selects lamp 0. Neither long
    press handles a packet. *)
Theorem group_toggle_round_trip (st : state) :
  reachable st → lampsInUse st = true → displayConnected st = true →
  let st1 := rotaryLongPressStart st in
  let st2 := rotaryLongPressStart st1 in
  isOnDefault <$> myLamps st1 = isOn <$> myLamps st ∧
  Forall (λ l, isOn l = false) (myLamps st1) ∧
  selectedLamp st1 = 0%nat ∧ lampsInUse st1 = false ∧
  isOn <$> myLamps st2 = isOn <$> myLamps st ∧
  value <$> myLamps st2 = value <$> myLamps st ∧
  selectedLamp st2 = 0%nat ∧ lampsInUse st2 = true.
Proof.
  intros Hr Hin Hd st1 st2. apply reachable_ok in Hr.
  destruct (long_press_round_trip st Hr Hin Hd)
    as (H1 & H2 & _ & H4 & H5 & H6 & H7 & H8 & H9).
  repeat split; assumption.
Qed.

Lemma group_toggle_round_trip_witness :
  let st := mqttCallback "crafter-lamp/2/command" "90"
              (mqttCallback "crafter-lamp/0/command" "50" (setup true true true)) in
  isOn <$> myLamps (rotaryLongPressStart (rotaryLongPressStart st))
    = [true; false; true] ∧
  value <$> myLamps (rotaryLongPressStart (rotaryLongPressStart st))
    = [50; 128; 90].
Proof.
  intros st.
  assert (Hr : reachable st)
    by apply reachable_message, reachable_message, reachable_setup.
  assert (Hin : lampsInUse st = true) by (vm_compute; reflexivity).
  assert (Hd : displayConnected st = true) by (vm_compute; reflexivity).
  destruct (group_toggle_round_trip st Hr Hin Hd)
    as (_ & _ & _ & _ & H1 & H2 & _).
  split.
  - etransitivity; [exact H1|]. vm_compute. reflexivity.
  - etransitivity; [exact H2|]. vm_compute. reflexivity.
Defined.

(** ** Packets handled inside a publish *)

(** X23: a command handled inside the publish that ends a fade of a long
    press is overtaken by the rest of the long press. In [a] lamp 0 is
    restored and the command [50] for lamp 1 arrives in its publish: the
    loop then gives lamp 1 its default flag, and lamp 1 is off with its pin
    at 50. In [b] lamp 1 is switched off and the command [70] for lamp 0
    arrives in its publish: lamp 0 is on, and the long press ends with
    [lampsInUse] false. *)
Theorem packet_during_long_press :
  let cmd := λ t p, mkPump false [] (Some (mkPacket t p 0)) in
  let a :=
    rotaryLongPressStartWith
      (λ i, if (i =? 0)%nat then cmd "crafter-lamp/1/command" "50" else quiet)
      (rotaryLongPressStart (rotaryClick (setup true true true))) in
  let b :=
    rotaryLongPressStartWith
      (λ i, if (i =? 1)%nat then cmd "crafter-lamp/0/command" "70" else quiet)
      (mqttCallback "crafter-lamp/1/command" "60" (setup true true true)) in
  reachable a ∧
  isOn (lampAt a 1) = false ∧ output a LAMP_B_PIN = 50 ∧
  lampsInUse a = true ∧
  reachable b ∧
  isOn (lampAt b 0) = true ∧ output b LAMP_A_PIN = 70 ∧
  lampsInUse b = false ∧ lampsState b = true.
Proof.
  intros cmd a b.
  assert (Ha : reachable a).
  { apply reachable_long_with, reachable_long, reachable_click,
      reachable_setup. }
  assert (Hb : reachable b).
  { apply reachable_long_with, reachable_message, reachable_setup. }
  split; [exact Ha|]. do 3 (split; [vm_compute; reflexivity|]).
  split; [exact Hb|]. repeat split; vm_compute; reflexivity.
Qed.

(** X24: the settle event publishes the brightness the selected lamp had
    when the event fired. A command for that lamp handled inside the publish
    changes the lamp before the message goes out, and the message carries
    the old brightness. *)
Theorem publish_after_packet (e : pump) (m : packet) (st : state) (v : Z) :
  mqttConnected st = true →
  length (myLamps st) = numberOfLamps →
  (selectedLamp st < numberOfLamps)%nat →
  waiting e = Some m →
  topicLamp (pTopic m) = Z.of_nat (selectedLamp st) →
  topicPart (pTopic m) = mqttCommandTopic →
  toInt (pPayload m) = v → 1 ≤ v ≤ 255 →
  let i := selectedLamp st in
  let st' := clearDisplayAndPublishMQTT e st in
  value (lampAt st' i) = v ∧ output st' (pin (lampAt st i)) = v ∧
  published st' =
    published st
      ++ [(brightnessTopicOf i, String_of_Z (value (lampAt st i)))].
Proof.
  intros Hc Hlen Hs Hw Hlamp Hpart Hpay Hv i st'. subst st' i.
  unfold clearDisplayAndPublishMQTT. rewrite Hc.
  split; [|split; [|by rewrite mqttPublishValue_published]].
  all: unfold mqttPublishValue; rewrite Hw.
  all: unfold receive, mqttCallback.
  all: rewrite messageLamp_subtopic by (by rewrite Hpart).
  all: rewrite Hlamp, Hpart, Hpay, mqttDispatch_command by (done || lia).
  all: replace (v >? 0) with true by lia.
  all: unfold output; three_lamps st Hlen.
  all: destruct sel as [|[|[|?]]]; [ | | | unfold numberOfLamps in Hs; cbn in Hs; lia ].
  all: destruct (linkDown e); cbn; rewrite ?lookup_insert_eq; reflexivity.
Qed.

Lemma publish_after_packet_witness :
  let st := rotaryClick (setup true true true) in
  let e := mkPump false [] (Some (mkPacket "crafter-lamp/0/command" "9" 0)) in
  value (lampAt (clearDisplayAndPublishMQTT e st) 0) = 9 ∧
  published (clearDisplayAndPublishMQTT e st) =
    [ ("crafter-lamp/0/brightness", "128");
      ("crafter-lamp/0/brightness", "128") ].
Proof.
  intros st e.
  destruct (publish_after_packet e
              (mkPacket "crafter-lamp/0/command" "9" 0) st 9)
    as (H1 & _ & H2);
    [ vm_compute; reflexivity | vm_compute; reflexivity | vm_compute; lia
    | reflexivity | vm_compute; reflexivity | reflexivity | reflexivity
    | lia | ].
  split; [exact H1|].
  etransitivity; [exact H2|]. vm_compute. reflexivity.
Defined.

(** X25: a sketch whose broker connection failed at start-up never does
    anything on the link: its trace holds writes to the pins, delays and log
    lines only, no publish and no attempt to reconnect, whatever the
    gestures, the packets and the state of the link. *)
Theorem no_broker_no_reconnect (st : state) :
  reachable st → mqttConnected st = false → Forall silent (trace st).
Proof.
  intros Hr Hc. apply reachable_trace_own in Hr. unfold trace_own in Hr.
  rewrite Hc in Hr. eapply Forall_impl; [exact Hr|].
  intros x Hx. destruct x; try exact I; cbn in Hx.
  - by destruct Hx.
  - discriminate Hx.
Qed.

Lemma no_broker_no_reconnect_witness :
  Forall silent
    (trace (rotaryClickWith (mkPump true [-2; -2] None)
              (rotaryLongPressStart (setup true true false)))).
Proof.
  apply no_broker_no_reconnect.
  - apply reachable_click_with, reachable_long, reachable_setup.
  - reflexivity.
Defined.

